(** * InteractiveBrowserBrokerCredential: token acquisition and application registry

    A shallow embedding of
    [sdk/identity/azure-identity-broker/azure/identity/broker/_browser.py]:
    the constructor, [_request_token] and [_get_app] of
    [InteractiveBrowserBrokerCredential].

    [_request_token] is the method as the class has it, that is, under the
    [wrap_exceptions] decorator; [request_token_body] is the function the
    decorator is applied to.

    Python objects are modelled by explicit state passing: the credential
    instance, the MSAL application objects it has constructed, the ambient
    [within_dac] context variable and the outside world (MSAL, the operating
    system, the user) live in a [World]; a method is a function from a world
    to an outcome (a value or a raised exception) and a new world. *)

From stdpp Require Import base option list strings pretty gmap fin_maps.
From Stdlib Require Import ZArith.

Set Warnings "-register-all".

(** ** Python values *)

(** The values that travel through keyword arguments, token results and
    credential attributes. *)
Inductive pyval : Type :=
| PyNone
| PyBool (b : bool)
| PyInt (n : Z)
| PyStr (s : string)
| PyList (l : list pyval).

(** Python truthiness, as used by [if x:], [not x] and [bool(x)]. *)
Definition truthy (v : pyval) : bool :=
  match v with
  | PyNone => false
  | PyBool b => b
  | PyInt n => negb (n =? 0)%Z
  | PyStr s => negb (String.eqb s "")
  | PyList l => match l with [] => false | _ => true end
  end.

(** [**kwargs] and the dictionaries MSAL returns. *)
Abbreviation kwargs := (gmap string pyval).
Abbreviation TokenResult := (gmap string pyval).

(** [d.get(k)]: the value, or [None] when the key is absent. *)
Definition dict_get (k : string) (d : gmap string pyval) : pyval :=
  default PyNone (d !! k).

(** [k in d]. *)
Definition dict_contains (k : string) (d : gmap string pyval) : bool :=
  bool_decide (is_Some (d !! k)).

(** [d.pop(k, dflt)]: the value (or the default) and the dictionary without
    the key. *)
Definition dict_pop (k : string) (dflt : pyval) (d : gmap string pyval)
  : pyval * gmap string pyval :=
  (default dflt (d !! k), delete k d).

(** ** Exceptions *)

(** The exception classes the module distinguishes.  [socket.error] is an
    alias of [OSError]; [OSError_family] stands for it and its subclasses,
    that is, for exactly the instances an [except socket.error] clause
    catches.  [CredentialUnavailableError] is a subclass of
    [ClientAuthenticationError].  [OtherException] is any other subclass of
    [Exception], outside that family and outside the two azure classes. *)
Inductive exc_class : Type :=
| OSError_family (name : string)
| CredentialUnavailableError
| ClientAuthenticationError
| OtherException (name : string).

(** An exception instance: its class, its [message] and the [__cause__] set
    by [raise ... from ex].  For the two azure classes [message] is the
    [message] attribute, which the constructor computes from its argument
    (see [new_error]); for the other classes it is the single argument the
    exception was built with, so that [str(ex)] is [str] of it. *)
Inductive exc : Type :=
| Exc (cls : exc_class) (message : pyval) (cause : option exc).

Definition exc_cls (e : exc) : exc_class := let 'Exc c _ _ := e in c.
Definition exc_message (e : exc) : pyval := let 'Exc _ m _ := e in m.
Definition exc_cause (e : exc) : option exc := let 'Exc _ _ c := e in c.

(** [isinstance(e, socket.error)]. *)
Definition is_socket_error (e : exc) : bool :=
  match exc_cls e with
  | OSError_family _ => true
  | _ => false
  end.

(** The outcome of a call: a returned value or a raised exception. *)
Inductive Result (A : Type) : Type :=
| Ok (a : A)
| Raise (e : exc).
Arguments Ok {A} a.
Arguments Raise {A} e.

(** The exception a call raised, if any. *)
Definition raised {A} (r : Result A) : option exc :=
  match r with
  | Ok _ => None
  | Raise e => Some e
  end.

(** ** Objects

    [msal.TokenCache] and [msal.ClientApplication] instances are known by
    their identity only.  An application's identity is its position among the
    applications constructed so far, so two handles are equal exactly when
    they denote the same object. *)
Abbreviation TokenCache := nat.
Abbreviation AppHandle := nat.

(** The part of [urllib.parse.urlparse]'s result that is read. *)
Record ParseResult : Type := { url_port : pyval }.

(** The keyword arguments of the [msal.PublicClientApplication] constructor
    call in [_get_app]. *)
Record AppCtorArgs : Type := {
  client_id : pyval;
  client_credential : pyval;
  client_capabilities : pyval;
  authority : string;
  azure_region : pyval;
  token_cache : TokenCache;
  http_client : pyval;
  instance_discovery : pyval;
  enable_broker_on_windows : pyval;
  enable_pii_log : pyval
}.

(** The [prompt] argument: the library constant [msal.Prompt.NONE], or a
    string literal. *)
Inductive prompt_arg : Type :=
| Prompt_NONE
| Prompt_str (s : string).

(** The keyword arguments of [app.acquire_token_interactive]. *)
Record AcquireArgs : Type := {
  scopes : list string;
  login_hint : pyval;
  claims_challenge : pyval;
  timeout : pyval;
  prompt : prompt_arg;
  port : pyval;
  parent_window_handle : pyval;
  enable_msa_passthrough : pyval
}.

(** The attributes inherited from [InteractiveBrowserCredential] (and its
    bases) that this module reads or writes. *)
Record InteractiveBrowserCredential : Type := {
  _tenant_id : string;
  _additionally_allowed_tenants : list string;
  _client_id : pyval;
  _client_credential : pyval;
  _authority : string;
  _regional_authority : pyval;
  _client : pyval;
  _instance_discovery : pyval;
  _enable_support_logging : pyval;
  _login_hint : pyval;
  _timeout : pyval;
  _parsed_url : option ParseResult;
  _client_applications : gmap string AppHandle;
  _cae_client_applications : gmap string AppHandle;
  _cache : option TokenCache;
  _cae_cache : option TokenCache
}.

(** An [InteractiveBrowserBrokerCredential] instance: the inherited
    attributes and the three set by its own [__init__]. *)
Record InteractiveBrowserBrokerCredential : Type := {
  base :> InteractiveBrowserCredential;
  _parent_window_handle : pyval;
  _enable_msa_passthrough : pyval;
  _use_operating_system_account : pyval
}.

Definition set_base (b : InteractiveBrowserCredential)
    (c : InteractiveBrowserBrokerCredential) : InteractiveBrowserBrokerCredential :=
  {| base := b;
     _parent_window_handle := _parent_window_handle c;
     _enable_msa_passthrough := _enable_msa_passthrough c;
     _use_operating_system_account := _use_operating_system_account c |}.

(** The application map of a capability mode: [_cae_client_applications]
    when CAE is enabled, [_client_applications] otherwise. *)
Definition applications_map (cae : bool) (b : InteractiveBrowserCredential)
  : gmap string AppHandle :=
  if cae then _cae_client_applications b else _client_applications b.

(** The token cache attribute of a capability mode. *)
Definition cache_slot (cae : bool) (b : InteractiveBrowserCredential)
  : option TokenCache :=
  if cae then _cae_cache b else _cache b.

(** [client_applications_map[tenant_id] = app], on the map of the mode. *)
Definition store_application (cae : bool) (tenant_id : string) (app : AppHandle)
    (b : InteractiveBrowserCredential) : InteractiveBrowserCredential :=
  {| _tenant_id := _tenant_id b;
     _additionally_allowed_tenants := _additionally_allowed_tenants b;
     _client_id := _client_id b;
     _client_credential := _client_credential b;
     _authority := _authority b;
     _regional_authority := _regional_authority b;
     _client := _client b;
     _instance_discovery := _instance_discovery b;
     _enable_support_logging := _enable_support_logging b;
     _login_hint := _login_hint b;
     _timeout := _timeout b;
     _parsed_url := _parsed_url b;
     _client_applications :=
       if cae then _client_applications b
       else <[tenant_id := app]> (_client_applications b);
     _cae_client_applications :=
       if cae then <[tenant_id := app]> (_cae_client_applications b)
       else _cae_client_applications b;
     _cache := _cache b;
     _cae_cache := _cae_cache b |}.

(** Rebinding of the two cache attributes. *)
Definition set_caches (cs : option TokenCache * option TokenCache)
    (b : InteractiveBrowserCredential) : InteractiveBrowserCredential :=
  {| _tenant_id := _tenant_id b;
     _additionally_allowed_tenants := _additionally_allowed_tenants b;
     _client_id := _client_id b;
     _client_credential := _client_credential b;
     _authority := _authority b;
     _regional_authority := _regional_authority b;
     _client := _client b;
     _instance_discovery := _instance_discovery b;
     _enable_support_logging := _enable_support_logging b;
     _login_hint := _login_hint b;
     _timeout := _timeout b;
     _parsed_url := _parsed_url b;
     _client_applications := _client_applications b;
     _cae_client_applications := _cae_client_applications b;
     _cache := cs.1;
     _cae_cache := cs.2 |}.

(** ** Collaborators

    What the module calls but does not define: [resolve_tenant] (from
    [._utils]), the base class's [__init__] and [_initialize_cache], and
    MSAL's application constructor and [acquire_token_interactive].  They are
    an interface; [ExtState] is whatever state of the outside world they
    depend on and change.

    [_initialize_cache(is_cae)] receives and may rebind the two cache
    attributes, [(_cache, _cae_cache)].  The constructor answers [None] when
    it returns normally.  [py_repr] is Python's [repr], which [str] applies
    to the elements of a list. *)
Class Collaborators : Type := {
  ExtState : Type;
  resolve_tenant : string -> list string -> kwargs -> Result string;
  super_init : kwargs -> Result InteractiveBrowserCredential;
  _initialize_cache :
    bool -> option TokenCache * option TokenCache -> ExtState ->
    Result TokenCache * (option TokenCache * option TokenCache) * ExtState;
  PublicClientApplication : AppCtorArgs -> ExtState -> option exc * ExtState;
  acquire_token_interactive :
    AppHandle -> AcquireArgs -> ExtState -> Result TokenResult * ExtState;
  py_repr : pyval -> string
}.

(** ** Worlds and computations *)

Section Model.
Context `{!Collaborators}.

(** Everything a method can read or change.  [applications] holds the
    constructor arguments of the application objects built so far (the handle
    of an application is its position).  [acquire_log] and [init_log] record
    the calls made to [acquire_token_interactive] (with what each returned or
    raised) and to [_initialize_cache], oldest first; the code never reads
    them. *)
Record World : Type := {
  self : InteractiveBrowserBrokerCredential;
  within_dac : bool;
  outside : ExtState;
  applications : list AppCtorArgs;
  acquire_log : list (AppHandle * AcquireArgs * Result TokenResult);
  init_log : list bool
}.

Definition set_self (c : InteractiveBrowserBrokerCredential) (w : World) : World :=
  {| self := c; within_dac := within_dac w; outside := outside w;
     applications := applications w; acquire_log := acquire_log w;
     init_log := init_log w |}.

Definition set_outside (o : ExtState) (w : World) : World :=
  {| self := self w; within_dac := within_dac w; outside := o;
     applications := applications w; acquire_log := acquire_log w;
     init_log := init_log w |}.

Definition set_applications (l : list AppCtorArgs) (w : World) : World :=
  {| self := self w; within_dac := within_dac w; outside := outside w;
     applications := l; acquire_log := acquire_log w;
     init_log := init_log w |}.

Definition set_acquire_log
    (l : list (AppHandle * AcquireArgs * Result TokenResult)) (w : World) : World :=
  {| self := self w; within_dac := within_dac w; outside := outside w;
     applications := applications w; acquire_log := l;
     init_log := init_log w |}.

Definition set_init_log (l : list bool) (w : World) : World :=
  {| self := self w; within_dac := within_dac w; outside := outside w;
     applications := applications w; acquire_log := acquire_log w;
     init_log := l |}.

(** A computation: from a world to an outcome and the world it leaves. *)
Definition M (A : Type) : Type := World -> Result A * World.

#[export] Instance M_ret : MRet M := λ A a w, (Ok a, w).

#[export] Instance M_bind : MBind M := λ A B f m w,
  match m w with
  | (Ok a, w') => f a w'
  | (Raise e, w') => (Raise e, w')
  end.

(** [raise e]. *)
Definition raise {A} (e : exc) : M A := λ w, (Raise e, w).

(** Reading an attribute or the context variable. *)
Definition read {A} (f : World -> A) : M A := λ w, (Ok (f w), w).

(** Running a computation that mentions attributes of [self], read when it
    starts. *)
Definition with_self {A} (f : InteractiveBrowserBrokerCredential -> M A) : M A :=
  λ w, f (self w) w.

(** Updating the inherited attributes of [self]. *)
Definition update_base
    (f : InteractiveBrowserCredential -> InteractiveBrowserCredential) : M () :=
  λ w, (Ok (), set_self (set_base (f (self w)) (self w)) w).

(** [within_dac.get()]. *)
Definition within_dac_get : M bool := read within_dac.

(** A pure call that may raise. *)
Definition lift {A} (r : Result A) : M A := λ w, (r, w).

(** [try: body / except <class> as ex: handler], where [catches] decides
    whether an instance belongs to the class. *)
Definition try_except {A} (body : M A) (catches : exc -> bool)
    (handler : exc -> M A) : M A := λ w,
  match body w with
  | (Raise e, w') => if catches e then handler e w' else (Raise e, w')
  | r => r
  end.

(** [d[k]]; [str] of a [KeyError] is the [repr] of the key. *)
Definition dict_getitem {V} (k : string) (d : gmap string V) : M V :=
  match d !! k with
  | Some v => mret v
  | None => raise (Exc (OtherException "KeyError") (PyStr (py_repr (PyStr k))) None)
  end.

(** [str(v)]. *)
Definition py_str (v : pyval) : string :=
  match v with
  | PyNone => "None"
  | PyBool true => "True"
  | PyBool false => "False"
  | PyInt n => pretty n
  | PyStr s => s
  | PyList l => "[" +:+ String.concat ", " (py_repr <$> l) +:+ "]"
  end.

(** [str(ex)] for an exception outside the azure classes. *)
Definition exc_str (ex : exc) : string := py_str (exc_message ex).

(** The [message] attribute that the constructor of
    [ClientAuthenticationError] and of [CredentialUnavailableError] (both
    from azure-core's [HttpResponseError], built here without a response)
    gives an instance: [str(message)], with a falsy [message] replaced by
    the text about the missing status. *)
Definition error_message (message : pyval) : string :=
  if truthy message then py_str message
  else "Operation returned an invalid status 'None'".

(** [cls(message=message)], raised [from cause] if there is one. *)
Definition new_error (cls : exc_class) (message : pyval) (cause : option exc) : exc :=
  Exc cls (PyStr (error_message message)) cause.

(** [isinstance(ex, ClientAuthenticationError)]. *)
Definition is_ClientAuthenticationError (ex : exc) : bool :=
  match exc_cls ex with
  | ClientAuthenticationError | CredentialUnavailableError => true
  | _ => false
  end.

(** What [wrap_exceptions] raises for an exception [ex] of the function it
    wraps: [ex] itself if it is a [ClientAuthenticationError], and otherwise
    [ClientAuthenticationError("Authentication failed: <ex>")] from [ex]. *)
Definition reraised (ex : exc) : exc :=
  if is_ClientAuthenticationError ex then ex
  else new_error ClientAuthenticationError
         (PyStr ("Authentication failed: " +:+ exc_str ex)) (Some ex).

(** The decorator [wrap_exceptions] of line 63.  It is imported from
    [._utils], which is not part of this file; it runs the function inside
    [try: ... except ClientAuthenticationError: raise / except Exception as
    ex: raise ClientAuthenticationError(message="Authentication failed:
    {}".format(ex)) from ex]. *)
Definition wrap_exceptions {A} (fn : M A) : M A :=
  try_except fn (λ _, true) (λ ex, raise (reraised ex)).

(** The outcome of a decorated call, from the outcome of the function. *)
Definition wrap_result {A} (r : Result A) : Result A :=
  match r with
  | Ok a => Ok a
  | Raise ex => Raise (reraised ex)
  end.

(** [self._initialize_cache(is_cae=...)]. *)
Definition call_initialize_cache (is_cae : bool) : M TokenCache := λ w,
  let '(r, cs, o) :=
    _initialize_cache is_cae (_cache (self w), _cae_cache (self w)) (outside w) in
  (r, set_init_log (init_log w ++ [is_cae])
        (set_outside o (set_self (set_base (set_caches cs (self w)) (self w)) w))).

(** [msal.PublicClientApplication(...)]: on success the new object joins
    [applications] and its handle is returned. *)
Definition call_PublicClientApplication (args : AppCtorArgs) : M AppHandle := λ w,
  match PublicClientApplication args (outside w) with
  | (None, o) =>
      (Ok (length (applications w)),
       set_applications (applications w ++ [args]) (set_outside o w))
  | (Some e, o) => (Raise e, set_outside o w)
  end.

(** The world after an [acquire_token_interactive] call that answered [r]
    and left the outside world in state [o]. *)
Definition logged (app : AppHandle) (args : AcquireArgs) (r : Result TokenResult)
    (o : ExtState) (w : World) : World :=
  set_acquire_log (acquire_log w ++ [(app, args, r)]) (set_outside o w).

(** [app.acquire_token_interactive(...)]. *)
Definition call_acquire_token_interactive (app : AppHandle) (args : AcquireArgs)
  : M TokenResult := λ w,
  let '(r, o) := acquire_token_interactive app args (outside w) in
  (r, logged app args r o w).

(** ** The methods *)

(** [__init__(self, **kwargs)], lines 57-61: the three broker options are
    popped from the keyword arguments, and what is left goes to the base
    class. *)
Definition __init__ (kw : kwargs) : Result InteractiveBrowserBrokerCredential :=
  let '(parent_window_handle, kw) := dict_pop "parent_window_handle" PyNone kw in
  let '(enable_msa_passthrough, kw) :=
    dict_pop "enable_msa_passthrough" (PyBool false) kw in
  let '(use_operating_system_account, kw) :=
    dict_pop "use_operating_system_account" (PyBool false) kw in
  match super_init kw with
  | Ok b =>
      Ok {| base := b;
            _parent_window_handle := parent_window_handle;
            _enable_msa_passthrough := enable_msa_passthrough;
            _use_operating_system_account := use_operating_system_account |}
  | Raise e => Raise e
  end.

(** The keyword arguments of the constructor call of lines 131-142. *)
Definition application_args (self : InteractiveBrowserBrokerCredential)
    (capabilities : pyval) (tenant_id : string) (token_cache : TokenCache)
  : AppCtorArgs :=
  {| client_id := _client_id self;
     client_credential := _client_credential self;
     client_capabilities := capabilities;
     authority := _authority self +:+ "/" +:+ tenant_id;
     azure_region := _regional_authority self;
     token_cache := token_cache;
     http_client := _client self;
     instance_discovery := _instance_discovery self;
     enable_broker_on_windows := PyBool true;
     enable_pii_log := _enable_support_logging self |}.

(** [_get_app(self, **kwargs)], lines 111-144.

    The source binds [client_applications_map] and [token_cache] (lines
    116-125) before it calls [_initialize_cache]; the map is the dictionary
    object held by the attribute, so the test of line 130 and the assignment
    of line 131 act on the attribute itself, and, [_initialize_cache] having
    no access to the maps, reading the map after the initialization gives
    the same dictionary.  [not token_cache] (line 127) is the test for an
    attribute that is still [None]: a cache object is truthy. *)
Definition _get_app (kw : kwargs) : M AppHandle :=
  tenant_id ← with_self (λ self,
    lift (resolve_tenant (_tenant_id self) (_additionally_allowed_tenants self) kw));
  let enable_cae := truthy (dict_get "enable_cae" kw) in
  let capabilities := if enable_cae then PyList [PyStr "CP1"] else PyNone in
  token_cache ← read (λ w, cache_slot enable_cae (self w));
  token_cache ← match token_cache with
                | Some c => mret c
                | None => call_initialize_cache enable_cae
                end;
  client_applications_map ← read (λ w, applications_map enable_cae (self w));
  (if bool_decide (is_Some (client_applications_map !! tenant_id)) then mret ()
   else
     app ← with_self (λ self,
       call_PublicClientApplication
         (application_args self capabilities tenant_id token_cache));
     update_base (store_application enable_cae tenant_id app));;
  client_applications_map ← read (λ w, applications_map enable_cae (self w));
  dict_getitem tenant_id client_applications_map.

(** The keyword arguments of the two [app.acquire_token_interactive] calls
    of [_request_token] (lines 72-81 and 87-96): the same expressions, except
    for [prompt]. *)
Definition acquire_args (self : InteractiveBrowserBrokerCredential)
    (scopes : list string) (claims port : pyval) (p : prompt_arg) : AcquireArgs :=
  {| scopes := scopes;
     login_hint := _login_hint self;
     claims_challenge := claims;
     timeout := _timeout self;
     prompt := p;
     port := port;
     parent_window_handle := _parent_window_handle self;
     enable_msa_passthrough := _enable_msa_passthrough self |}.

Definition acquire (app : AppHandle) (scopes : list string) (claims port : pyval)
    (p : prompt_arg) : M TokenResult :=
  with_self (λ self,
    call_acquire_token_interactive app (acquire_args self scopes claims port p)).

(** Line 68: [self._parsed_url.port if self._parsed_url else None]. *)
Definition port_of (self : InteractiveBrowserBrokerCredential) : pyval :=
  match _parsed_url self with
  | Some u => url_port u
  | None => PyNone
  end.

(** Lines 70-85 of [_request_token]: the attempt with the operating system
    account.  [Some result] is the early [return result] of line 83; [None]
    means that control reaches line 86. *)
Definition os_account_attempt (app : AppHandle) (scopes : list string)
    (claims port : pyval) : M (option TokenResult) :=
  use_operating_system_account ← read (λ w, _use_operating_system_account (self w));
  if truthy use_operating_system_account then
    try_except
      (result ← acquire app scopes claims port Prompt_NONE;
       if dict_contains "access_token" result then mret (Some result)
       else mret None)
      is_socket_error
      (λ _, mret None)
  else mret None.

(** Lines 86-109 of [_request_token]: the interactive attempt and the
    classification of its result. *)
Definition interactive_attempt (app : AppHandle) (scopes : list string)
    (claims port : pyval) : M TokenResult :=
  result ← try_except
             (acquire app scopes claims port (Prompt_str "select_account"))
             is_socket_error
             (λ ex, raise (new_error CredentialUnavailableError
                             (PyStr "Couldn't start an HTTP server.") (Some ex)));
  if negb (dict_contains "access_token" result)
     && dict_contains "error_description" result then
    in_dac ← within_dac_get;
    if in_dac : bool then
      message ← dict_getitem "error_description" result;
      raise (new_error CredentialUnavailableError message None)
    else
      raise (new_error ClientAuthenticationError
               (dict_get "error_description" result) None)
  else if negb (dict_contains "access_token" result) then
    in_dac ← within_dac_get;
    if in_dac : bool then
      raise (new_error CredentialUnavailableError
               (PyStr "Failed to authenticate user") None)
    else
      raise (new_error ClientAuthenticationError
               (PyStr "Failed to authenticate user") None)
  else mret result.

(** Lines 64-109: the function that the decorator of line 63 is applied
    to. *)
Definition request_token_body (scopes : list string) (kw : kwargs) : M TokenResult :=
  let claims := dict_get "claims" kw in
  app ← _get_app kw;
  port ← read (λ w, port_of (self w));
  early ← os_account_attempt app scopes claims port;
  match early with
  | Some result => mret result
  | None => interactive_attempt app scopes claims port
  end.

(** [_request_token(self, *scopes, **kwargs)], lines 63-109: the method,
    decorated. *)
Definition _request_token (scopes : list string) (kw : kwargs) : M TokenResult :=
  wrap_exceptions (request_token_body scopes kw).

(** ** Observing a call

    The calls to [acquire_token_interactive] made between two worlds, oldest
    first. *)
Definition new_calls (w w' : World)
  : list (AppHandle * AcquireArgs * Result TokenResult) :=
  drop (length (acquire_log w)) (acquire_log w').

(** Between [w] and [w'] the interactive attempt (the call with
    [prompt="select_account"]) was made and answered [r]. *)
Definition interactive_attempt_gave (w w' : World) (r : Result TokenResult) : Prop :=
  ∃ app a, (app, a, r) ∈ new_calls w w' ∧ prompt a = Prompt_str "select_account".

(** The attributes that no method of this module assigns after
    construction. *)
Definition same_settings (c c' : InteractiveBrowserBrokerCredential) : Prop :=
  _parent_window_handle c' = _parent_window_handle c ∧
  _enable_msa_passthrough c' = _enable_msa_passthrough c ∧
  _use_operating_system_account c' = _use_operating_system_account c ∧
  _tenant_id c' = _tenant_id c ∧
  _additionally_allowed_tenants c' = _additionally_allowed_tenants c ∧
  _client_id c' = _client_id c ∧
  _client_credential c' = _client_credential c ∧
  _authority c' = _authority c ∧
  _regional_authority c' = _regional_authority c ∧
  _client c' = _client c ∧
  _instance_discovery c' = _instance_discovery c ∧
  _enable_support_logging c' = _enable_support_logging c ∧
  _login_hint c' = _login_hint c ∧
  _timeout c' = _timeout c ∧
  _parsed_url c' = _parsed_url c.

(** The registry is in order: every handle stored in a map denotes a
    constructed application, and no application is stored under both
    capability modes. *)
Definition registry_ok (w : World) : Prop :=
  (∀ cae t h, applications_map cae (self w) !! t = Some h →
              h < length (applications w)) ∧
  (∀ t t' h h', _client_applications (self w) !! t = Some h →
                _cae_client_applications (self w) !! t' = Some h' → h ≠ h').

(** The same world in another chain context. *)
Definition set_within_dac (b : bool) (w : World) : World :=
  {| self := self w; within_dac := b; outside := outside w;
     applications := applications w; acquire_log := acquire_log w;
     init_log := init_log w |}.

(** Every entry of the registry holds an application that was constructed
    for its key: for the tenant's authority, with the capabilities of the
    mode, for this credential's client id and with the broker enabled. *)
Definition registry_consistent (w : World) : Prop :=
  ∀ cae t h, applications_map cae (self w) !! t = Some h →
    ∃ args, applications w !! h = Some args ∧
      authority args = _authority (self w) +:+ "/" +:+ t ∧
      client_capabilities args = (if cae then PyList [PyStr "CP1"] else PyNone) ∧
      client_id args = _client_id (self w) ∧
      enable_broker_on_windows args = PyBool true.

(** A use of the credential: one call of either method. *)
Inductive method_call : Type :=
| Call_get_app (kw : kwargs)
| Call_request_token (scopes : list string) (kw : kwargs).

(** The world after a call, whatever it returned or raised. *)
Definition run_call (c : method_call) (w : World) : World :=
  match c with
  | Call_get_app kw => (_get_app kw w).2
  | Call_request_token scopes kw => (_request_token scopes kw w).2
  end.

(** The world after a sequence of calls, first call first. *)
Definition run_calls (calls : list method_call) (w : World) : World :=
  foldl (λ w c, run_call c w) w calls.

End Model.

(** ** A scripted environment *)

(** The socket error of a loopback port that cannot be bound. *)
Definition no_listener : exc :=
  Exc (OSError_family "OSError") (PyStr "Address already in use") None.

(** [repr] as far as the scripted runs need it: exact for [None], booleans,
    integers and strings of letters, digits and spaces; lists are not
    used. *)
Definition scripted_repr (v : pyval) : string :=
  match v with
  | PyNone => "None"
  | PyBool true => "True"
  | PyBool false => "False"
  | PyInt n => pretty n
  | PyStr s => "'" +:+ s +:+ "'"
  | PyList _ => "[...]"
  end.

(** Modelled from the spec: the collaborators, none of which is defined in
    [_browser.py], in a form that can be run.  Tenant resolution is
    deterministic and rejects a requested tenant that is neither the
    configured one nor additionally allowed; cache initialization creates
    the cache of the mode (cache [0] for the standard mode, cache [1] for
    CAE) and the credential owns it from then on; the base constructor
    starts with empty application maps and no cache; application
    construction always succeeds; and [acquire_token_interactive] answers
    with the next entry of a script, or with a socket error once the script
    is used up. *)
Definition scripted : Collaborators := {|
  ExtState := list (Result TokenResult);
  resolve_tenant := λ tenant_id allowed kw,
    match kw !! "tenant_id" with
    | Some (PyStr t) =>
        if bool_decide (t = tenant_id ∨ t ∈ allowed) then Ok t
        else Raise (Exc ClientAuthenticationError (PyStr "tenant not allowed") None)
    | _ => Ok tenant_id
    end;
  super_init := λ kw,
    Ok {| _tenant_id := "organizations";
          _additionally_allowed_tenants := ["contoso"];
          _client_id := dict_get "client_id" kw;
          _client_credential := PyNone;
          _authority := "https://login.microsoftonline.com";
          _regional_authority := PyNone;
          _client := PyNone;
          _instance_discovery := PyNone;
          _enable_support_logging := PyBool false;
          _login_hint := dict_get "login_hint" kw;
          _timeout := default (PyInt 300) (kw !! "timeout");
          _parsed_url := None;
          _client_applications := ∅;
          _cae_client_applications := ∅;
          _cache := None;
          _cae_cache := None |};
  _initialize_cache := λ is_cae cs o,
    if is_cae then (Ok 1, (cs.1, Some 1), o) else (Ok 0, (Some 0, cs.2), o);
  PublicClientApplication := λ _ o, (None, o);
  acquire_token_interactive := λ _ _ o,
    match o with
    | r :: rest => (r, rest)
    | [] => (Raise no_listener, [])
    end;
  py_repr := scripted_repr
|}.

(** A world of the scripted environment: a credential fresh from
    [__init__], inside or outside a credential chain, with the answers that
    [acquire_token_interactive] will give. *)
Definition scripted_world (c : InteractiveBrowserBrokerCredential) (in_dac : bool)
    (script : list (Result TokenResult)) : @World scripted :=
  @Build_World scripted c in_dac script [] [] [].

(** A credential with every attribute unset. *)
Definition blank_credential : InteractiveBrowserBrokerCredential :=
  {| base := {| _tenant_id := ""; _additionally_allowed_tenants := [];
                _client_id := PyNone; _client_credential := PyNone;
                _authority := ""; _regional_authority := PyNone;
                _client := PyNone; _instance_discovery := PyNone;
                _enable_support_logging := PyNone; _login_hint := PyNone;
                _timeout := PyNone; _parsed_url := None;
                _client_applications := ∅; _cae_client_applications := ∅;
                _cache := None; _cae_cache := None |};
     _parent_window_handle := PyNone;
     _enable_msa_passthrough := PyNone;
     _use_operating_system_account := PyNone |}.

(** The credential built by [__init__] from the given keyword arguments in
    the scripted environment, whose base constructor never raises. *)
Definition scripted_credential (kw : kwargs) : InteractiveBrowserBrokerCredential :=
  match @__init__ scripted kw with
  | Ok c => c
  | Raise _ => blank_credential
  end.

Definition scope_graph : list string := ["https://graph.example/.default"].



(** * Properties *)

(** A run without the operating system account: one call, with
    [prompt="select_account"] and [port=None], whose result is returned
    unchanged. *)
Example scripted_plain_success :
  let w := scripted_world (scripted_credential ∅) false
             [Ok {[ "access_token" := PyStr "abc" ]}] in
  (_request_token scope_graph ∅ w).1 = Ok {[ "access_token" := PyStr "abc" ]} ∧
  new_calls w (_request_token scope_graph ∅ w).2 =
    [(0, {| scopes := scope_graph; login_hint := PyNone; claims_challenge := PyNone;
            timeout := PyInt 300; prompt := Prompt_str "select_account";
            port := PyNone; parent_window_handle := PyNone;
            enable_msa_passthrough := PyBool false |},
      Ok {[ "access_token" := PyStr "abc" ]})].
Proof. vm_compute. split; reflexivity. Qed.

Section Properties.
Context `{!Collaborators}.

(** Unfolding of the computation combinators. *)
Ltac run :=
  unfold request_token_body, os_account_attempt, interactive_attempt, acquire,
    call_acquire_token_interactive, _get_app, call_initialize_cache,
    call_PublicClientApplication, dict_getitem, within_dac_get, update_base,
    with_self, try_except, lift, read, raise, mbind, M_bind, mret, M_ret.

(** ** What [_get_app] leaves alone *)

Lemma get_app_frame kw w :
  acquire_log (_get_app kw w).2 = acquire_log w ∧
  within_dac (_get_app kw w).2 = within_dac w ∧
  same_settings (self w) (self (_get_app kw w).2).
Proof.
  run. repeat case_match; simplify_eq/=; repeat split.
Qed.

(** ** The two blocks of [_request_token], run *)

Lemma new_calls_app w w' l :
  acquire_log w' = acquire_log w ++ l → new_calls w w' = l.
Proof. unfold new_calls. intros ->. by rewrite drop_app_length. Qed.

Lemma interactive_attempt_ok app scopes claims port w r o :
  acquire_token_interactive app
    (acquire_args (self w) scopes claims port (Prompt_str "select_account"))
    (outside w) = (Ok r, o) →
  interactive_attempt app scopes claims port w =
    (match r !! "access_token", r !! "error_description" with
     | Some _, _ => Ok r
     | None, Some d =>
         Raise (new_error (if within_dac w then CredentialUnavailableError
                           else ClientAuthenticationError) d None)
     | None, None =>
         Raise (Exc (if within_dac w then CredentialUnavailableError
                     else ClientAuthenticationError)
                  (PyStr "Failed to authenticate user") None)
     end,
     logged app (acquire_args (self w) scopes claims port (Prompt_str "select_account"))
       (Ok r) o w).
Proof.
  intros Hcall. run. rewrite Hcall. unfold dict_contains, dict_get.
  destruct (r !! "access_token"), (r !! "error_description"); cbn;
    by destruct (within_dac w).
Qed.

Lemma interactive_attempt_raise app scopes claims port w e o :
  acquire_token_interactive app
    (acquire_args (self w) scopes claims port (Prompt_str "select_account"))
    (outside w) = (Raise e, o) →
  interactive_attempt app scopes claims port w =
    (if is_socket_error e
     then Raise (Exc CredentialUnavailableError
                   (PyStr "Couldn't start an HTTP server.") (Some e))
     else Raise e,
     logged app (acquire_args (self w) scopes claims port (Prompt_str "select_account"))
       (Raise e) o w).
Proof.
  intros Hcall. run. rewrite Hcall. by destruct (is_socket_error e).
Qed.

Lemma interactive_attempt_log app scopes claims port w :
  acquire_log (interactive_attempt app scopes claims port w).2 =
  acquire_log w ++
    [(app, acquire_args (self w) scopes claims port (Prompt_str "select_account"),
      (acquire_token_interactive app
         (acquire_args (self w) scopes claims port (Prompt_str "select_account"))
         (outside w)).1)].
Proof.
  destruct (acquire_token_interactive app
    (acquire_args (self w) scopes claims port (Prompt_str "select_account"))
    (outside w)) as [[r|e] o] eqn:Hcall.
  - by rewrite (interactive_attempt_ok _ _ _ _ _ _ _ Hcall).
  - by rewrite (interactive_attempt_raise _ _ _ _ _ _ _ Hcall).
Qed.

(** The outcome of the interactive block depends on the world through the
    credential, the context variable and the outside world only. *)
Lemma interactive_attempt_outcome app scopes claims port w w' :
  self w' = self w → within_dac w' = within_dac w → outside w' = outside w →
  (interactive_attempt app scopes claims port w').1 =
  (interactive_attempt app scopes claims port w).1.
Proof.
  intros Hs Hd Ho.
  destruct (acquire_token_interactive app
    (acquire_args (self w) scopes claims port (Prompt_str "select_account"))
    (outside w)) as [[r|e] o] eqn:Hcall.
  - rewrite (interactive_attempt_ok _ _ _ _ w _ _ Hcall).
    rewrite <- Hs, <- Ho in Hcall.
    rewrite (interactive_attempt_ok _ _ _ _ w' _ _ Hcall). cbn. by rewrite Hd.
  - rewrite (interactive_attempt_raise _ _ _ _ w _ _ Hcall).
    rewrite <- Hs, <- Ho in Hcall.
    by rewrite (interactive_attempt_raise _ _ _ _ w' _ _ Hcall).
Qed.

Lemma interactive_attempt_world app scopes claims port w :
  let a := acquire_args (self w) scopes claims port (Prompt_str "select_account") in
  (interactive_attempt app scopes claims port w).2 =
  logged app a (acquire_token_interactive app a (outside w)).1
    (acquire_token_interactive app a (outside w)).2 w.
Proof.
  cbv zeta.
  destruct (acquire_token_interactive app
    (acquire_args (self w) scopes claims port (Prompt_str "select_account"))
    (outside w)) as [[r|e] o] eqn:Hcall.
  - by rewrite (interactive_attempt_ok _ _ _ _ _ _ _ Hcall).
  - by rewrite (interactive_attempt_raise _ _ _ _ _ _ _ Hcall).
Qed.

(** [_request_token], path by path. *)
Lemma request_token_run scopes kw w :
  request_token_body scopes kw w =
  match _get_app kw w with
  | (Raise e, w1) => (Raise e, w1)
  | (Ok app, w1) =>
      let claims := dict_get "claims" kw in
      let port := port_of (self w1) in
      let a := acquire_args (self w1) scopes claims port Prompt_NONE in
      if truthy (_use_operating_system_account (self w1)) then
        match acquire_token_interactive app a (outside w1) with
        | (Ok r, o) =>
            if dict_contains "access_token" r
            then (Ok r, logged app a (Ok r) o w1)
            else interactive_attempt app scopes claims port (logged app a (Ok r) o w1)
        | (Raise e, o) =>
            if is_socket_error e
            then interactive_attempt app scopes claims port (logged app a (Raise e) o w1)
            else (Raise e, logged app a (Raise e) o w1)
        end
      else interactive_attempt app scopes claims port w1
  end.
Proof.
  unfold request_token_body, os_account_attempt, acquire,
    call_acquire_token_interactive, with_self, try_except, read,
    mbind, M_bind, mret, M_ret.
  destruct (_get_app kw w) as [[app|e] w1]; [|done]. cbn.
  destruct (truthy _); [|done].
  destruct (acquire_token_interactive _ _ _) as [[r|e] o]; cbn.
  - by destruct (dict_contains _ _).
  - by destruct (is_socket_error e).
Qed.

(** The decorator changes neither the world nor a returned value; a raised
    exception comes out as [reraised] gives it. *)
Lemma wrap_exceptions_run {A} (fn : M A) w :
  wrap_exceptions fn w = (wrap_result (fn w).1, (fn w).2).
Proof.
  unfold wrap_exceptions, try_except, raise. by destruct (fn w) as [[a|e] w'].
Qed.

Lemma request_token_fst scopes kw w :
  (_request_token scopes kw w).1 = wrap_result (request_token_body scopes kw w).1.
Proof. unfold _request_token. by rewrite wrap_exceptions_run. Qed.

Lemma request_token_snd scopes kw w :
  (_request_token scopes kw w).2 = (request_token_body scopes kw w).2.
Proof. unfold _request_token. by rewrite wrap_exceptions_run. Qed.

Lemma wrap_result_ok {A} (r : Result A) a : wrap_result r = Ok a → r = Ok a.
Proof. by destruct r. Qed.

(** The errors that lines 98-106 raise pass the decorator unchanged. *)
Lemma reraised_new_error (in_dac : bool) message cause :
  reraised (new_error (if in_dac then CredentialUnavailableError
                       else ClientAuthenticationError) message cause) =
  new_error (if in_dac then CredentialUnavailableError
             else ClientAuthenticationError) message cause.
Proof. by destruct in_dac. Qed.

Lemma reraised_not_socket ex : is_socket_error (reraised ex) = false.
Proof.
  unfold reraised, is_ClientAuthenticationError, is_socket_error.
  destruct ex as [[] m c]; done.
Qed.

(** The calls a run of [_request_token] makes: none when [_get_app] raises,
    otherwise the attempt with the operating system account (if enabled)
    followed by the interactive attempt (if reached). *)
Lemma new_calls_interactive app scopes claims port w wm pre :
  acquire_log wm = acquire_log w ++ pre →
  new_calls w (interactive_attempt app scopes claims port wm).2 =
  pre ++ [(app, acquire_args (self wm) scopes claims port (Prompt_str "select_account"),
           (acquire_token_interactive app
              (acquire_args (self wm) scopes claims port (Prompt_str "select_account"))
              (outside wm)).1)].
Proof.
  intros Hpre. apply new_calls_app.
  by rewrite interactive_attempt_log, Hpre, <- app_assoc.
Qed.

(** If the interactive attempt was made, the call's outcome is that of the
    interactive block, run in a world with the caller's context variable. *)
Lemma interactive_attempt_gave_inv scopes kw w resp :
  interactive_attempt_gave w (request_token_body scopes kw w).2 resp →
  ∃ app claims port wm o,
    within_dac wm = within_dac w ∧
    acquire_token_interactive app
      (acquire_args (self wm) scopes claims port (Prompt_str "select_account"))
      (outside wm) = (resp, o) ∧
    (request_token_body scopes kw w).1 = (interactive_attempt app scopes claims port wm).1.
Proof.
  intros (app' & a' & Hin & Hprompt). revert Hin.
  rewrite request_token_run.
  destruct (get_app_frame kw w) as (Hlog & Hdac & _).
  destruct (_get_app kw w) as [[app|e] w1]; cbn [fst snd] in *.
  2: { rewrite (new_calls_app w w1 []) by (by rewrite app_nil_r).
       by intros ?%elem_of_nil. }
  cbv zeta.
  set (claims := dict_get "claims" kw). set (port := port_of (self w1)).
  set (a := acquire_args (self w1) scopes claims port Prompt_NONE).
  assert (Hfinal : ∀ wm pre,
    acquire_log wm = acquire_log w ++ pre → within_dac wm = within_dac w →
    (∀ x, x ∈ pre → prompt x.1.2 = Prompt_NONE) →
    (app', a', resp) ∈ new_calls w (interactive_attempt app scopes claims port wm).2 →
    ∃ app0 claims0 port0 wm0 o,
      within_dac wm0 = within_dac w ∧
      acquire_token_interactive app0
        (acquire_args (self wm0) scopes claims0 port0 (Prompt_str "select_account"))
        (outside wm0) = (resp, o) ∧
      (interactive_attempt app scopes claims port wm).1 =
      (interactive_attempt app0 scopes claims0 port0 wm0).1).
  { intros wm pre Hpre Hd Hnone.
    rewrite (new_calls_interactive _ _ _ _ _ _ _ Hpre).
    intros [Hold|Hnew%list_elem_of_singleton]%elem_of_app.
    - apply Hnone in Hold. cbn in Hold. congruence.
    - injection Hnew as -> -> ->.
      exists app, claims, port, wm.
      destruct (acquire_token_interactive _ _ _) as [resp o]. by exists o. }
  destruct (truthy _).
  - destruct (acquire_token_interactive app a (outside w1)) as [[r|e] o].
    + destruct (dict_contains _ _).
      * cbn [snd]. rewrite (new_calls_app w _ [(app, a, Ok r)]) by (cbn; by rewrite Hlog).
        intros Hin%list_elem_of_singleton. injection Hin as -> -> ->.
        cbn in Hprompt. congruence.
      * apply (Hfinal _ [(app, a, Ok r)]); cbn; [by rewrite Hlog|done|].
        by intros x ->%list_elem_of_singleton.
    + destruct (is_socket_error e).
      * apply (Hfinal _ [(app, a, Raise e)]); cbn; [by rewrite Hlog|done|].
        by intros x ->%list_elem_of_singleton.
      * cbn [snd]. rewrite (new_calls_app w _ [(app, a, Raise e)]) by (cbn; by rewrite Hlog).
        intros Hin%list_elem_of_singleton. injection Hin as -> -> ->.
        cbn in Hprompt. congruence.
  - apply (Hfinal w1 []); [by rewrite app_nil_r|done|].
    by intros x ?%elem_of_nil.
Qed.

(** ** Classification of the interactive attempt's result *)

(** C1, with the messages the code carries.  Whenever a call to
    [_request_token] makes the interactive attempt and that attempt returns
    [r]: if [r] contains [access_token], the call returns [r]; if it lacks
    [access_token] and has [error_description], the call raises
    [CredentialUnavailableError] inside a credential chain and
    [ClientAuthenticationError] outside one, built with the value of
    [error_description] as [message], so that the error's message is [str]
    of that value, or the constructor's own text when the value is falsy;
    if it lacks both, the same two classes are raised with the message
    "Failed to authenticate user". *)
Theorem request_token_classification scopes kw w r :
  interactive_attempt_gave w (_request_token scopes kw w).2 (Ok r) →
  (is_Some (r !! "access_token") → (_request_token scopes kw w).1 = Ok r) ∧
  (r !! "access_token" = None → ∀ d, r !! "error_description" = Some d →
     (_request_token scopes kw w).1 =
     Raise (Exc (if within_dac w then CredentialUnavailableError
                 else ClientAuthenticationError)
              (PyStr (if truthy d then py_str d
                      else "Operation returned an invalid status 'None'"))
              None)) ∧
  (r !! "access_token" = None → r !! "error_description" = None →
     (_request_token scopes kw w).1 =
     Raise (Exc (if within_dac w then CredentialUnavailableError
                 else ClientAuthenticationError)
              (PyStr "Failed to authenticate user") None)).
Proof.
  rewrite request_token_snd, request_token_fst.
  intros (app & claims & port & wm & o & Hdac & Hcall & ->)%interactive_attempt_gave_inv.
  rewrite (interactive_attempt_ok _ _ _ _ _ _ _ Hcall), Hdac. cbn [fst].
  split; [|split].
  - by intros [v ->].
  - intros -> d ->. cbn [wrap_result]. by rewrite reraised_new_error.
  - intros -> ->. by destruct (within_dac w).
Qed.

(** C4.  Whenever a call to [_request_token] makes the interactive attempt
    and that attempt raises a socket error, the call raises
    [CredentialUnavailableError] with the message
    "Couldn't start an HTTP server." (and the socket error as cause), inside
    a credential chain and outside one alike. *)
Theorem interactive_socket_error_unavailable scopes kw w e :
  interactive_attempt_gave w (_request_token scopes kw w).2 (Raise e) →
  is_socket_error e = true →
  (_request_token scopes kw w).1 =
  Raise (Exc CredentialUnavailableError
           (PyStr "Couldn't start an HTTP server.") (Some e)).
Proof.
  rewrite request_token_snd, request_token_fst.
  intros (app & claims & port & wm & o & _ & Hcall & ->)%interactive_attempt_gave_inv Hsock.
  by rewrite (interactive_attempt_raise _ _ _ _ _ _ _ Hcall), Hsock.
Qed.

(** C10.  Whenever a call to [_request_token] makes the interactive
    attempt and that attempt returns a result [r] with neither
    [access_token] nor [error_description], whatever its [error] and other
    fields are, the call raises the generic "Failed to authenticate user"
    (as [CredentialUnavailableError] inside a chain, as
    [ClientAuthenticationError] outside one).  And what the call raises
    depends on the result through the presence of [access_token] and the
    entry for [error_description] only: any other call, in the same chain
    context, whose interactive attempt returns a result that agrees with [r]
    on these, raises the same error. *)
Theorem classification_ignores_other_fields scopes kw w r :
  interactive_attempt_gave w (_request_token scopes kw w).2 (Ok r) →
  (r !! "access_token" = None → r !! "error_description" = None →
   (_request_token scopes kw w).1 =
   Raise (Exc (if within_dac w then CredentialUnavailableError
               else ClientAuthenticationError)
            (PyStr "Failed to authenticate user") None)) ∧
  (∀ scopes' kw' w' r',
     interactive_attempt_gave w' (_request_token scopes' kw' w').2 (Ok r') →
     within_dac w = within_dac w' →
     (is_Some (r !! "access_token") ↔ is_Some (r' !! "access_token")) →
     r !! "error_description" = r' !! "error_description" →
     raised (_request_token scopes kw w).1 = raised (_request_token scopes' kw' w').1).
Proof.
  rewrite request_token_snd, request_token_fst.
  intros (app & claims & port & wm & o & Hdac & Hcall & ->)%interactive_attempt_gave_inv.
  rewrite (interactive_attempt_ok _ _ _ _ _ _ _ Hcall), Hdac. cbn [fst].
  split.
  - intros -> ->. by destruct (within_dac w).
  - intros scopes' kw' w' r'. rewrite request_token_snd, request_token_fst.
    intros (app' & claims' & port' & wm' & o' & Hdac' & Hcall' & ->)%interactive_attempt_gave_inv
      Hchain Htoken Hdescr.
    rewrite (interactive_attempt_ok _ _ _ _ _ _ _ Hcall'), Hdac', Hchain, Hdescr.
    cbn [fst].
    destruct (r !! "access_token") as [t|], (r' !! "access_token") as [t'|].
    + reflexivity.
    + exfalso. apply (is_Some_None (A := pyval)), Htoken. by exists t.
    + exfalso. apply (is_Some_None (A := pyval)), Htoken. by exists t'.
    + reflexivity.
Qed.

(** ** The attempt with the operating system account *)

Lemma acquire_args_settings c c' scopes claims port p :
  same_settings c c' →
  acquire_args c' scopes claims port p = acquire_args c scopes claims port p.
Proof.
  intros (Hpwh & Hmsa & _ & _ & _ & _ & _ & _ & _ & _ & _ & _ & Hhint & Htime & _).
  unfold acquire_args. by rewrite Hpwh, Hmsa, Hhint, Htime.
Qed.

Lemma port_of_settings c c' : same_settings c c' → port_of c' = port_of c.
Proof.
  intros (_ & _ & _ & _ & _ & _ & _ & _ & _ & _ & _ & _ & _ & _ & Hurl).
  unfold port_of. by rewrite Hurl.
Qed.

Lemma use_os_account_settings c c' :
  same_settings c c' →
  _use_operating_system_account c' = _use_operating_system_account c.
Proof. by intros (_ & _ & Hos & _). Qed.

(** The outcome of the interactive block under the decorator, as a function
    of what the interactive call answered. *)
Lemma wrapped_interactive_outcome app scopes claims port w :
  wrap_result (interactive_attempt app scopes claims port w).1 =
  match (acquire_token_interactive app
           (acquire_args (self w) scopes claims port (Prompt_str "select_account"))
           (outside w)).1 with
  | Ok r2 =>
      match r2 !! "access_token", r2 !! "error_description" with
      | Some _, _ => Ok r2
      | None, Some d =>
          Raise (Exc (if within_dac w then CredentialUnavailableError
                      else ClientAuthenticationError)
                   (PyStr (if truthy d then py_str d
                           else "Operation returned an invalid status 'None'"))
                   None)
      | None, None =>
          Raise (Exc (if within_dac w then CredentialUnavailableError
                      else ClientAuthenticationError)
                   (PyStr "Failed to authenticate user") None)
      end
  | Raise e2 =>
      Raise (if is_socket_error e2
             then Exc CredentialUnavailableError
                    (PyStr "Couldn't start an HTTP server.") (Some e2)
             else reraised e2)
  end.
Proof.
  destruct (acquire_token_interactive app
    (acquire_args (self w) scopes claims port (Prompt_str "select_account"))
    (outside w)) as [[r2|e2] o] eqn:Hcall.
  - rewrite (interactive_attempt_ok _ _ _ _ _ _ _ Hcall). cbn [fst].
    destruct (r2 !! "access_token"), (r2 !! "error_description"); try done.
    + cbn [wrap_result]. by rewrite reraised_new_error.
    + by destruct (within_dac w).
  - rewrite (interactive_attempt_raise _ _ _ _ _ _ _ Hcall). cbn [fst].
    by destruct (is_socket_error e2).
Qed.

(** [_request_token] once [_get_app] has returned and the operating system
    account is enabled: what follows is decided by the first call to
    [acquire_token_interactive]. *)
Lemma request_token_os_path scopes kw w app w1 :
  _get_app kw w = (Ok app, w1) →
  truthy (_use_operating_system_account (self w)) = true →
  let claims := dict_get "claims" kw in
  let port := port_of (self w) in
  let a := acquire_args (self w) scopes claims port Prompt_NONE in
  acquire_log w1 = acquire_log w ∧
  self (logged app a (acquire_token_interactive app a (outside w1)).1
          (acquire_token_interactive app a (outside w1)).2 w1) = self w1 ∧
  same_settings (self w) (self w1) ∧
  request_token_body scopes kw w =
  match acquire_token_interactive app a (outside w1) with
  | (Ok r, o) =>
      if dict_contains "access_token" r
      then (Ok r, logged app a (Ok r) o w1)
      else interactive_attempt app scopes claims port (logged app a (Ok r) o w1)
  | (Raise e, o) =>
      if is_socket_error e
      then interactive_attempt app scopes claims port (logged app a (Raise e) o w1)
      else (Raise e, logged app a (Raise e) o w1)
  end.
Proof.
  intros Hget Hflag. cbv zeta.
  destruct (get_app_frame kw w) as (Hlog & _ & Hset).
  rewrite request_token_run. rewrite Hget in *. cbn [snd] in *. cbv zeta.
  rewrite (port_of_settings _ _ Hset), (acquire_args_settings _ _ _ _ _ _ Hset),
    (use_os_account_settings _ _ Hset), Hflag.
  done.
Qed.

Lemma no_interactive_attempt w w' app a r :
  new_calls w w' = [(app, a, r)] → prompt a = Prompt_NONE →
  ∀ resp, ¬ interactive_attempt_gave w w' resp.
Proof.
  intros Hcalls Hprompt resp (app' & a' & Hin & Hsel). rewrite Hcalls in Hin.
  apply list_elem_of_singleton in Hin. injection Hin as -> -> ->. congruence.
Qed.

(** C2.  When [_get_app] has returned an application, the operating system
    account is enabled and the attempt with it returns a result that contains
    [access_token], [_request_token] returns that result, has called
    [acquire_token_interactive] once (with [prompt=msal.Prompt.NONE]), and
    has not made the interactive attempt. *)
Theorem os_account_token_returned_immediately scopes kw w app w1 r o :
  _get_app kw w = (Ok app, w1) →
  truthy (_use_operating_system_account (self w)) = true →
  acquire_token_interactive app
    (acquire_args (self w) scopes (dict_get "claims" kw) (port_of (self w)) Prompt_NONE)
    (outside w1) = (Ok r, o) →
  is_Some (r !! "access_token") →
  (_request_token scopes kw w).1 = Ok r ∧
  new_calls w (_request_token scopes kw w).2 =
    [(app, acquire_args (self w) scopes (dict_get "claims" kw) (port_of (self w))
             Prompt_NONE, Ok r)] ∧
  ∀ resp, ¬ interactive_attempt_gave w (_request_token scopes kw w).2 resp.
Proof.
  intros Hget Hflag Hcall Htoken.
  rewrite !request_token_snd, request_token_fst.
  destruct (request_token_os_path scopes kw w app w1 Hget Hflag) as (Hlog & _ & _ & ->).
  rewrite Hcall. unfold dict_contains. rewrite bool_decide_eq_true_2 by done.
  cbn [fst snd].
  assert (Hcalls : new_calls w
    (logged app (acquire_args (self w) scopes (dict_get "claims" kw)
                   (port_of (self w)) Prompt_NONE) (Ok r) o w1) =
    [(app, acquire_args (self w) scopes (dict_get "claims" kw) (port_of (self w))
             Prompt_NONE, Ok r)]).
  { apply new_calls_app. cbn. by rewrite Hlog. }
  split; [done|]. split; [done|].
  by eapply no_interactive_attempt.
Qed.


(** What follows a first attempt that neither returned a token nor raised
    past the [except] clause: the interactive block, whose outcome does not
    depend on what the first attempt answered. *)
Lemma request_token_falls_through scopes kw w app w1 resp o :
  same_settings (self w) (self w1) →
  acquire_log w1 = acquire_log w →
  let claims := dict_get "claims" kw in
  let port := port_of (self w) in
  let a_os := acquire_args (self w) scopes claims port Prompt_NONE in
  let a_int := acquire_args (self w) scopes claims port (Prompt_str "select_account") in
  let w2 := logged app a_os resp o w1 in
  new_calls w (interactive_attempt app scopes claims port w2).2 =
    [(app, a_os, resp); (app, a_int, (acquire_token_interactive app a_int o).1)] ∧
  (interactive_attempt app scopes claims port w2).1 =
    (interactive_attempt app scopes claims port (set_outside o w1)).1.
Proof.
  intros Hset Hlog. cbv zeta. split.
  - rewrite (new_calls_interactive _ _ _ _ w _
               [(app, acquire_args (self w) scopes (dict_get "claims" kw)
                        (port_of (self w)) Prompt_NONE, resp)])
      by (cbn; by rewrite Hlog).
    cbn [self logged set_acquire_log set_outside outside].
    by rewrite (acquire_args_settings _ _ _ _ _ _ Hset).
  - by apply interactive_attempt_outcome.
Qed.

(** C3.  When [_get_app] has returned an application, the operating system
    account is enabled and the attempt with it raises a socket error, the
    error is swallowed: [_request_token] goes on with the interactive
    attempt, which is made exactly once, after the failed attempt, and the
    outcome of the call is decided by what the interactive call answers: a
    result with [access_token] is returned, a result without one is
    classified, a socket error becomes [CredentialUnavailableError], and
    another exception comes out as the decorator passes it on.  The
    swallowed socket error itself is not raised. *)
Theorem os_account_socket_error_swallowed scopes kw w app w1 e o :
  _get_app kw w = (Ok app, w1) →
  truthy (_use_operating_system_account (self w)) = true →
  acquire_token_interactive app
    (acquire_args (self w) scopes (dict_get "claims" kw) (port_of (self w)) Prompt_NONE)
    (outside w1) = (Raise e, o) →
  is_socket_error e = true →
  let claims := dict_get "claims" kw in
  let port := port_of (self w) in
  let a_os := acquire_args (self w) scopes claims port Prompt_NONE in
  let a_int := acquire_args (self w) scopes claims port (Prompt_str "select_account") in
  _request_token scopes kw w =
    wrap_exceptions (interactive_attempt app scopes claims port)
      (logged app a_os (Raise e) o w1) ∧
  new_calls w (_request_token scopes kw w).2 =
    [(app, a_os, Raise e); (app, a_int, (acquire_token_interactive app a_int o).1)] ∧
  (_request_token scopes kw w).1 ≠ Raise e ∧
  (_request_token scopes kw w).1 =
    match (acquire_token_interactive app a_int o).1 with
    | Ok r2 =>
        match r2 !! "access_token", r2 !! "error_description" with
        | Some _, _ => Ok r2
        | None, Some d =>
            Raise (Exc (if within_dac w then CredentialUnavailableError
                        else ClientAuthenticationError)
                     (PyStr (if truthy d then py_str d
                             else "Operation returned an invalid status 'None'"))
                     None)
        | None, None =>
            Raise (Exc (if within_dac w then CredentialUnavailableError
                        else ClientAuthenticationError)
                     (PyStr "Failed to authenticate user") None)
        end
    | Raise e2 =>
        Raise (if is_socket_error e2
               then Exc CredentialUnavailableError
                      (PyStr "Couldn't start an HTTP server.") (Some e2)
               else reraised e2)
    end.
Proof.
  intros Hget Hflag Hcall Hsock. cbv zeta.
  destruct (get_app_frame kw w) as (_ & Hdac & _).
  rewrite Hget in Hdac. cbn [snd] in Hdac.
  destruct (request_token_os_path scopes kw w app w1 Hget Hflag)
    as (Hlog & _ & Hset & Hrun).
  rewrite Hcall, Hsock in Hrun.
  destruct (request_token_falls_through scopes kw w app w1 (Raise e) o Hset Hlog)
    as [Hcalls Hout].
  assert (Hwhole : _request_token scopes kw w =
    wrap_exceptions
      (interactive_attempt app scopes (dict_get "claims" kw) (port_of (self w)))
      (logged app (acquire_args (self w) scopes (dict_get "claims" kw)
                     (port_of (self w)) Prompt_NONE) (Raise e) o w1)).
  { unfold _request_token. by rewrite !wrap_exceptions_run, Hrun. }
  split; [done|].
  rewrite request_token_snd, request_token_fst, Hrun.
  split; [done|]. split.
  - rewrite Hout.
    generalize (interactive_attempt app scopes (dict_get "claims" kw)
                  (port_of (self w)) (set_outside o w1)).1.
    intros [r|e']; [done|].
    cbn [wrap_result]. intros [= Heq].
    pose proof (reraised_not_socket e') as Hns. congruence.
  - rewrite Hout, wrapped_interactive_outcome.
    cbn [self outside set_outside within_dac].
    by rewrite (acquire_args_settings _ _ _ _ _ _ Hset), Hdac.
Qed.

(** C9.  When [_get_app] has returned an application, the operating system
    account is enabled and the attempt with it returns a result [r1] that
    lacks [access_token], the result is dropped: the interactive attempt is
    made next, and the outcome of [_request_token] is the outcome of the
    (decorated) interactive block in the world that the first attempt left,
    in which [r1] (and its [error_description]) occurs nowhere.  That
    outcome is decided by the answer of the interactive call alone: a
    returned result is the interactive attempt's; the message of a
    classification error is made from the interactive result's
    [error_description] or is the generic one; any other error is an
    exception of the interactive call itself, as the [except] clause of
    line 97 and the decorator pass it on. *)
Theorem os_account_tokenless_result_discarded scopes kw w app w1 r1 o :
  _get_app kw w = (Ok app, w1) →
  truthy (_use_operating_system_account (self w)) = true →
  acquire_token_interactive app
    (acquire_args (self w) scopes (dict_get "claims" kw) (port_of (self w)) Prompt_NONE)
    (outside w1) = (Ok r1, o) →
  r1 !! "access_token" = None →
  let claims := dict_get "claims" kw in
  let port := port_of (self w) in
  let a_os := acquire_args (self w) scopes claims port Prompt_NONE in
  let a_int := acquire_args (self w) scopes claims port (Prompt_str "select_account") in
  new_calls w (_request_token scopes kw w).2 =
    [(app, a_os, Ok r1); (app, a_int, (acquire_token_interactive app a_int o).1)] ∧
  (_request_token scopes kw w).1 =
    (wrap_exceptions (interactive_attempt app scopes claims port)
       (set_outside o w1)).1 ∧
  (_request_token scopes kw w).1 =
    match (acquire_token_interactive app a_int o).1 with
    | Ok r2 =>
        match r2 !! "access_token", r2 !! "error_description" with
        | Some _, _ => Ok r2
        | None, Some d =>
            Raise (Exc (if within_dac w then CredentialUnavailableError
                        else ClientAuthenticationError)
                     (PyStr (if truthy d then py_str d
                             else "Operation returned an invalid status 'None'"))
                     None)
        | None, None =>
            Raise (Exc (if within_dac w then CredentialUnavailableError
                        else ClientAuthenticationError)
                     (PyStr "Failed to authenticate user") None)
        end
    | Raise e2 =>
        Raise (if is_socket_error e2
               then Exc CredentialUnavailableError
                      (PyStr "Couldn't start an HTTP server.") (Some e2)
               else reraised e2)
    end.
Proof.
  intros Hget Hflag Hcall Htoken. cbv zeta.
  destruct (get_app_frame kw w) as (_ & Hdac & _).
  rewrite Hget in Hdac. cbn [snd] in Hdac.
  rewrite request_token_snd, !request_token_fst.
  destruct (request_token_os_path scopes kw w app w1 Hget Hflag)
    as (Hlog & _ & Hset & ->).
  rewrite Hcall. unfold dict_contains. rewrite Htoken.
  rewrite bool_decide_eq_false_2 by (by intros [? ?]).
  destruct (request_token_falls_through scopes kw w app w1 (Ok r1) o Hset Hlog)
    as [Hcalls Hout].
  split; [done|]. rewrite Hout, wrap_exceptions_run. split; [done|].
  rewrite wrapped_interactive_outcome.
  cbn [self outside set_outside within_dac].
  by rewrite (acquire_args_settings _ _ _ _ _ _ Hset), Hdac.
Qed.

(** ** The broker options *)

Lemma request_token_settings scopes kw w :
  same_settings (self w) (self (request_token_body scopes kw w).2).
Proof.
  rewrite request_token_run.
  destruct (get_app_frame kw w) as (_ & _ & Hset).
  destruct (_get_app kw w) as [[app|e] w1]; cbn [snd] in *; [|done]. cbv zeta.
  destruct (truthy _).
  - destruct (acquire_token_interactive _ _ _) as [[r|e] o].
    + destruct (dict_contains _ _); [done|by rewrite interactive_attempt_world].
    + destruct (is_socket_error e); [by rewrite interactive_attempt_world|done].
  - by rewrite interactive_attempt_world.
Qed.

(** The calls of a run, in order. *)
Lemma request_token_calls scopes kw w :
  let a := acquire_args (self w) scopes (dict_get "claims" kw) (port_of (self w)) in
  ∃ app r1 r2,
    new_calls w (request_token_body scopes kw w).2 = [] ∨
    new_calls w (request_token_body scopes kw w).2 = [(app, a Prompt_NONE, r1)] ∨
    new_calls w (request_token_body scopes kw w).2 =
      [(app, a Prompt_NONE, r1); (app, a (Prompt_str "select_account"), r2)] ∨
    new_calls w (request_token_body scopes kw w).2 =
      [(app, a (Prompt_str "select_account"), r2)].
Proof.
  cbv zeta. rewrite request_token_run.
  destruct (get_app_frame kw w) as (Hlog & _ & Hset).
  destruct (_get_app kw w) as [[app|e] w1]; cbn [snd] in *.
  2: { exists 0, (Raise e), (Raise e). left.
       apply new_calls_app. by rewrite app_nil_r. }
  cbv zeta.
  rewrite (port_of_settings _ _ Hset), (acquire_args_settings _ _ _ _ _ _ Hset).
  destruct (truthy _).
  - destruct (acquire_token_interactive _ _ _) as [resp o] eqn:Hcall.
    destruct (request_token_falls_through scopes kw w app w1 resp o Hset Hlog)
      as [Hcalls _].
    exists app, resp,
      (acquire_token_interactive app
         (acquire_args (self w) scopes (dict_get "claims" kw) (port_of (self w))
            (Prompt_str "select_account")) o).1.
    assert (Hone : new_calls w
      (logged app (acquire_args (self w) scopes (dict_get "claims" kw)
                     (port_of (self w)) Prompt_NONE) resp o w1) =
      [(app, acquire_args (self w) scopes (dict_get "claims" kw) (port_of (self w))
               Prompt_NONE, resp)]).
    { apply new_calls_app. cbn. by rewrite Hlog. }
    destruct resp as [r|e].
    + destruct (dict_contains _ _); [by right; left|by right; right; left].
    + destruct (is_socket_error e); [by right; right; left|by right; left].
  - exists app, (Raise (Exc CredentialUnavailableError PyNone None)),
      (acquire_token_interactive app
         (acquire_args (self w1) scopes (dict_get "claims" kw) (port_of (self w))
            (Prompt_str "select_account")) (outside w1)).1.
    right; right; right.
    rewrite (new_calls_interactive _ _ _ _ w w1 []) by (by rewrite app_nil_r).
    by rewrite (acquire_args_settings _ _ _ _ _ _ Hset).
Qed.

(** C8.  [__init__] takes the parent window handle, the MSA passthrough
    flag and the operating system account flag out of its keyword arguments
    (defaults [None], [False], [False]) and stores them on the instance, the
    base class receiving the rest; [_request_token] and [_get_app] leave the
    three attributes as they are; and the calls to [acquire_token_interactive]
    that one run of [_request_token] makes, at most the attempt with the
    operating system account followed by the interactive attempt, carry the
    same scopes, login hint, claims challenge, timeout, port, parent window
    handle and MSA passthrough flag, with [prompt=msal.Prompt.NONE] for the
    former and [prompt="select_account"] for the latter. *)
Theorem broker_options_fixed_and_shared :
  (∀ kw,
     __init__ kw =
     match super_init (delete "use_operating_system_account"
                         (delete "enable_msa_passthrough"
                            (delete "parent_window_handle" kw))) with
     | Ok b =>
         Ok {| base := b;
               _parent_window_handle := default PyNone (kw !! "parent_window_handle");
               _enable_msa_passthrough :=
                 default (PyBool false) (kw !! "enable_msa_passthrough");
               _use_operating_system_account :=
                 default (PyBool false) (kw !! "use_operating_system_account") |}
     | Raise e => Raise e
     end) ∧
  (∀ scopes kw w,
     _parent_window_handle (self (_request_token scopes kw w).2) =
       _parent_window_handle (self w) ∧
     _enable_msa_passthrough (self (_request_token scopes kw w).2) =
       _enable_msa_passthrough (self w) ∧
     _use_operating_system_account (self (_request_token scopes kw w).2) =
       _use_operating_system_account (self w)) ∧
  (∀ kw w,
     _parent_window_handle (self (_get_app kw w).2) = _parent_window_handle (self w) ∧
     _enable_msa_passthrough (self (_get_app kw w).2) =
       _enable_msa_passthrough (self w) ∧
     _use_operating_system_account (self (_get_app kw w).2) =
       _use_operating_system_account (self w)) ∧
  (∀ scopes kw w,
     let a p :=
       {| scopes := scopes;
          login_hint := _login_hint (self w);
          claims_challenge := dict_get "claims" kw;
          timeout := _timeout (self w);
          prompt := p;
          port := port_of (self w);
          parent_window_handle := _parent_window_handle (self w);
          enable_msa_passthrough := _enable_msa_passthrough (self w) |} in
     ∃ app r1 r2,
       new_calls w (_request_token scopes kw w).2 = [] ∨
       new_calls w (_request_token scopes kw w).2 = [(app, a Prompt_NONE, r1)] ∨
       new_calls w (_request_token scopes kw w).2 =
         [(app, a Prompt_NONE, r1); (app, a (Prompt_str "select_account"), r2)] ∨
       new_calls w (_request_token scopes kw w).2 =
         [(app, a (Prompt_str "select_account"), r2)]).
Proof.
  split; [|split; [|split]].
  - intros kw. unfold __init__, dict_pop.
    rewrite !lookup_delete_ne by done. reflexivity.
  - intros scopes kw w. rewrite request_token_snd.
    by destruct (request_token_settings scopes kw w) as (-> & -> & -> & _).
  - intros kw w.
    by destruct (get_app_frame kw w) as (_ & _ & -> & -> & -> & _).
  - intros scopes kw w. rewrite request_token_snd. apply request_token_calls.
Qed.

(** ** The application registry *)

Lemma applications_map_store cae t h b cae' t' :
  applications_map cae' (store_application cae t h b) !! t' =
  if decide (cae' = cae ∧ t' = t) then Some h else applications_map cae' b !! t'.
Proof.
  destruct cae, cae'; cbn; case_decide as Hd; try (destruct Hd as [? ->]);
    try done.
  - apply lookup_insert_eq.
  - apply lookup_insert_ne. naive_solver.
  - apply lookup_insert_eq.
  - apply lookup_insert_ne. naive_solver.
Qed.

(** [_get_app], step by step: tenant resolution, the cache of the mode
    (initialized if the attribute is unset), the lookup in the map of the
    mode and, for a tenant that is not there, the construction and
    registration of an application. *)
Lemma get_app_run kw w :
  let cae := truthy (dict_get "enable_cae" kw) in
  let capabilities := if cae then PyList [PyStr "CP1"] else PyNone in
  _get_app kw w =
  match resolve_tenant (_tenant_id (self w)) (_additionally_allowed_tenants (self w)) kw with
  | Raise e => (Raise e, w)
  | Ok t =>
      match (match cache_slot cae (self w) with
             | Some c => (Ok c, w)
             | None => call_initialize_cache cae w
             end) with
      | (Raise e, w1) => (Raise e, w1)
      | (Ok c, w1) =>
          match applications_map cae (self w1) !! t with
          | Some h => (Ok h, w1)
          | None =>
              match PublicClientApplication
                      (application_args (self w1) capabilities t c) (outside w1) with
              | (Some e, o) => (Raise e, set_outside o w1)
              | (None, o) =>
                  (Ok (length (applications w1)),
                   set_self
                     (set_base (store_application cae t (length (applications w1))
                                  (self w1)) (self w1))
                     (set_applications
                        (applications w1 ++
                           [application_args (self w1) capabilities t c])
                        (set_outside o w1)))
              end
          end
      end
  end.
Proof.
  cbv zeta.
  unfold _get_app, call_PublicClientApplication, dict_getitem, update_base,
    with_self, lift, read, raise, mbind, M_bind, mret, M_ret.
  destruct (resolve_tenant _ _ _) as [t|e]; [|done].
  destruct (cache_slot _ _) as [c|]; cbn.
  - destruct (applications_map _ (self w) !! t) as [h|] eqn:Hlook; cbn.
    + by rewrite Hlook.
    + destruct (PublicClientApplication _ _) as [[e|] o]; cbn; [done|].
      by rewrite applications_map_store, decide_True.
  - destruct (call_initialize_cache _ w) as [[c|e] w1]; cbn; [|done].
    destruct (applications_map _ (self w1) !! t) as [h|] eqn:Hlook; cbn.
    + by rewrite Hlook.
    + destruct (PublicClientApplication _ _) as [[e|] o]; cbn; [done|].
      by rewrite applications_map_store, decide_True.
Qed.

Lemma initialize_cache_frame cae w :
  (∀ m, applications_map m (self (call_initialize_cache cae w).2) =
        applications_map m (self w)) ∧
  applications (call_initialize_cache cae w).2 = applications w ∧
  same_settings (self w) (self (call_initialize_cache cae w).2) ∧
  init_log (call_initialize_cache cae w).2 = init_log w ++ [cae] ∧
  (call_initialize_cache cae w).1 =
    (_initialize_cache cae (_cache (self w), _cae_cache (self w)) (outside w)).1.1 ∧
  (_cache (self (call_initialize_cache cae w).2),
   _cae_cache (self (call_initialize_cache cae w).2)) =
    (_initialize_cache cae (_cache (self w), _cae_cache (self w)) (outside w)).1.2.
Proof.
  unfold call_initialize_cache.
  destruct (_initialize_cache _ _ _) as [[r [c1 c2]] o]. cbn.
  repeat split; try done; by intros [].
Qed.

(** A successful [_get_app], summed up. *)
Lemma get_app_ok kw w app w' :
  _get_app kw w = (Ok app, w') →
  let cae := truthy (dict_get "enable_cae" kw) in
  let capabilities := if cae then PyList [PyStr "CP1"] else PyNone in
  ∃ t c,
    resolve_tenant (_tenant_id (self w)) (_additionally_allowed_tenants (self w)) kw
      = Ok t ∧
    applications_map cae (self w') !! t = Some app ∧
    applications_map (negb cae) (self w') = applications_map (negb cae) (self w) ∧
    match cache_slot cae (self w) with
    | Some c0 =>
        c = c0 ∧ init_log w' = init_log w ∧
        cache_slot cae (self w') = cache_slot cae (self w)
    | None =>
        (_initialize_cache cae (_cache (self w), _cae_cache (self w)) (outside w)).1.1
          = Ok c ∧
        init_log w' = init_log w ++ [cae] ∧
        (_cache (self w'), _cae_cache (self w')) =
          (_initialize_cache cae (_cache (self w), _cae_cache (self w)) (outside w)).1.2
    end ∧
    match applications_map cae (self w) !! t with
    | Some h => app = h ∧ applications w' = applications w
    | None =>
        app = length (applications w) ∧
        applications w' =
          applications w ++ [application_args (self w) capabilities t c]
    end.
Proof.
  cbv zeta. rewrite get_app_run. cbv zeta.
  destruct (resolve_tenant _ _ _) as [t|e]; [|done].
  generalize (truthy (dict_get "enable_cae" kw)). intros cae.
  destruct (initialize_cache_frame cae w) as (Hmaps & Happs & Hset & Hinit & Hres & Hcs).
  assert (Hargs : ∀ caps c,
    application_args (self (call_initialize_cache cae w).2) caps t c =
    application_args (self w) caps t c).
  { intros caps c.
    destruct Hset as (_ & _ & _ & _ & _ & Hid & Hcred & Hauth & Hreg & Hcl & Hdisc & Hpii & _).
    unfold application_args. by rewrite Hid, Hcred, Hauth, Hreg, Hcl, Hdisc, Hpii. }
  destruct (cache_slot cae (self w)) as [c0|] eqn:Hslot.
  - destruct (applications_map cae (self w) !! t) as [h|] eqn:Hlook.
    + intros [= <- <-]. exists t, c0. rewrite Hlook. by repeat split.
    + destruct (PublicClientApplication _ _) as [[e|] o]; [done|].
      intros [= <- <-]. exists t, c0. cbn.
      rewrite applications_map_store, decide_True, Hlook by done.
      repeat split; try done; by destruct cae.
  - destruct (call_initialize_cache cae w) as [[c|e] w1]; [|done].
    cbn [fst snd] in *. rewrite Hmaps.
    destruct (applications_map cae (self w) !! t) as [h|] eqn:Hlook.
    + intros [= <- <-]. exists t, c. rewrite Hmaps, Hlook. by repeat split.
    + rewrite Hargs, Happs.
      destruct (PublicClientApplication _ _) as [[e|] o]; [done|].
      intros [= <- <-]. exists t, c. cbn.
      rewrite applications_map_store, decide_True, Hlook by done.
      rewrite <- (Hmaps (negb cae)), <- Hcs.
      repeat split; try done; by destruct cae.
Qed.

(** [_get_app] only ever adds to the registry. *)
Lemma get_app_grows kw w :
  (∀ m t h, applications_map m (self w) !! t = Some h →
            applications_map m (self (_get_app kw w).2) !! t = Some h) ∧
  (∃ l, applications (_get_app kw w).2 = applications w ++ l).
Proof.
  rewrite get_app_run. cbv zeta.
  generalize (truthy (dict_get "enable_cae" kw)). intros cae.
  destruct (initialize_cache_frame cae w) as (Hmaps & Happs & _).
  assert (Hself : ∀ m t h, applications_map m (self w) !! t = Some h →
            applications_map m (self w) !! t = Some h) by done.
  assert (Hnil : ∃ l, applications w = applications w ++ l)
    by (exists []; by rewrite app_nil_r).
  destruct (resolve_tenant _ _ _) as [t|e]; [|done].
  assert (Hstore : ∀ w1 c o,
    (∀ m, applications_map m (self w1) = applications_map m (self w)) →
    applications w1 = applications w →
    applications_map cae (self w1) !! t = None →
    let w2 :=
      set_self (set_base (store_application cae t (length (applications w1))
                            (self w1)) (self w1))
        (set_applications
           (applications w1 ++
              [application_args (self w1)
                 (if cae then PyList [PyStr "CP1"] else PyNone) t c])
           (set_outside o w1)) in
    (∀ m t' h, applications_map m (self w) !! t' = Some h →
               applications_map m (self w2) !! t' = Some h) ∧
    (∃ l, applications w2 = applications w ++ l)).
  { intros w1 c o Hm Ha Hnone. cbn. split.
    - intros m t' h Hold. rewrite applications_map_store.
      case_decide as Hd; [|by rewrite Hm].
      destruct Hd as [-> ->]. rewrite <- Hm in Hold. congruence.
    - rewrite Ha. by eexists. }
  destruct (cache_slot cae (self w)) as [c0|].
  - destruct (applications_map cae (self w) !! t) as [h|] eqn:Hlook; [done|].
    destruct (PublicClientApplication _ _) as [[e|] o]; [done|].
    by apply Hstore.
  - destruct (call_initialize_cache cae w) as [[c|e] w1]; cbn [fst snd] in *.
    2: { split; [by intros m t' h; rewrite Hmaps|by rewrite Happs]. }
    destruct (applications_map cae (self w1) !! t) as [h|] eqn:Hlook;
      cbn [fst snd].
    + split; [by intros m t' h'; rewrite Hmaps|by rewrite Happs].
    + destruct (PublicClientApplication _ _) as [[e|] o]; cbn [fst snd].
      * cbn. split; [by intros m t' h'; rewrite Hmaps|by rewrite Happs].
      * by apply Hstore.
Qed.

Lemma request_token_self scopes kw w :
  self (request_token_body scopes kw w).2 = self (_get_app kw w).2 ∧
  applications (request_token_body scopes kw w).2 = applications (_get_app kw w).2 ∧
  init_log (request_token_body scopes kw w).2 = init_log (_get_app kw w).2.
Proof.
  rewrite request_token_run.
  destruct (_get_app kw w) as [[app|e] w1]; cbn [snd]; [|done]. cbv zeta.
  destruct (truthy _).
  - destruct (acquire_token_interactive _ _ _) as [[r|e] o].
    + destruct (dict_contains _ _); [done|by rewrite interactive_attempt_world].
    + destruct (is_socket_error e); [by rewrite interactive_attempt_world|done].
  - by rewrite interactive_attempt_world.
Qed.

(** C5.  Provided that a successful [_initialize_cache] leaves the cache
    attribute of its mode set: when [_get_app] has returned an application,
    a second call whose keyword arguments resolve to the same tenant and
    select the same capability mode returns the same handle and changes
    nothing, so no application is constructed and [_initialize_cache] is
    not called again; and no call to [_get_app] or to [_request_token]
    removes or replaces an entry of either application map. *)
Theorem get_app_idempotent kw kw' w app w1 :
  (∀ is_cae cs o c cs' o',
     _initialize_cache is_cae cs o = (Ok c, cs', o') →
     (if is_cae then cs'.2 else cs'.1) ≠ None) →
  _get_app kw w = (Ok app, w1) →
  resolve_tenant (_tenant_id (self w)) (_additionally_allowed_tenants (self w)) kw' =
  resolve_tenant (_tenant_id (self w)) (_additionally_allowed_tenants (self w)) kw →
  truthy (dict_get "enable_cae" kw') = truthy (dict_get "enable_cae" kw) →
  _get_app kw' w1 = (Ok app, w1) ∧
  applications (_get_app kw' w1).2 = applications w1 ∧
  init_log (_get_app kw' w1).2 = init_log w1 ∧
  (∀ w0 scopes kw0 m t h,
     applications_map m (self w0) !! t = Some h →
     applications_map m (self (_get_app kw0 w0).2) !! t = Some h ∧
     applications_map m (self (_request_token scopes kw0 w0).2) !! t = Some h).
Proof.
  intros Hinit Hget Htenant Hmode.
  assert (Hsame : _get_app kw' w1 = (Ok app, w1)).
  2: { rewrite Hsame. do 3 (split; [done|]).
       intros w0 scopes kw0 m t h Hold. rewrite request_token_snd.
       destruct (request_token_self scopes kw0 w0) as (-> & _).
       split; by apply get_app_grows. }
  destruct (get_app_frame kw w) as (_ & _ & Hset). rewrite Hget in Hset.
  cbn [snd] in Hset.
    destruct Hset as (_ & _ & _ & Htid & Hallowed & _).
    destruct (get_app_ok kw w app w1 Hget) as (t & c & Hres & Hmap & _ & Hcache & _).
    rewrite get_app_run. cbv zeta. rewrite Htid, Hallowed, Htenant, Hres, Hmode.
    assert (Hset : is_Some (cache_slot (truthy (dict_get "enable_cae" kw)) (self w1))).
    { destruct (cache_slot _ (self w)) as [c0|] eqn:Hslot.
      - destruct Hcache as (_ & _ & ->). by eexists.
      - destruct Hcache as (Hok & _ & Hcs).
        destruct (_initialize_cache _ _ _) as [[r cs] o] eqn:Hi. cbn in Hok, Hcs.
        subst r. apply Hinit in Hi.
        apply not_eq_None_Some. unfold cache_slot.
        subst cs. by destruct (truthy _). }
    destruct Hset as [c1 ->]. by rewrite Hmap.
Qed.

(** The registry stays in order. *)
Lemma get_app_registry_ok kw w : registry_ok w → registry_ok (_get_app kw w).2.
Proof.
  intros [Halloc Hdisj].
  rewrite get_app_run. cbv zeta.
  generalize (truthy (dict_get "enable_cae" kw)). intros cae.
  destruct (initialize_cache_frame cae w) as (Hmaps & Happs & _).
  destruct (resolve_tenant _ _ _) as [t|e]; [|done].
  assert (Hkeep : ∀ w1,
    (∀ m, applications_map m (self w1) = applications_map m (self w)) →
    applications w1 = applications w → registry_ok w1).
  { intros w1 Hm Ha. split.
    - intros m t' h. rewrite Hm, Ha. apply Halloc.
    - intros t1 t2 h1 h2. rewrite (Hm false : _client_applications _ = _),
        (Hm true : _cae_client_applications _ = _). apply Hdisj. }
  assert (Hstore : ∀ w1 c o,
    (∀ m, applications_map m (self w1) = applications_map m (self w)) →
    applications w1 = applications w →
    registry_ok
      (set_self (set_base (store_application cae t (length (applications w1))
                             (self w1)) (self w1))
         (set_applications
            (applications w1 ++
               [application_args (self w1)
                  (if cae then PyList [PyStr "CP1"] else PyNone) t c])
            (set_outside o w1)))).
  { intros w1 c o Hm Ha. split; cbn.
    - intros m t' h. rewrite applications_map_store, length_app, Ha. cbn.
      case_decide; [intros [= <-]; lia|].
      rewrite Hm. intros ?%Halloc. lia.
    - pose proof (Hm false) as Hstd. pose proof (Hm true) as Hcae.
      cbn [applications_map] in Hstd, Hcae.
      destruct cae; cbn; intros t1 t2 h1 h2; rewrite Hstd, Hcae, Ha.
      + intros H1 H2. rewrite lookup_insert in H2.
        case_decide; [|by eapply Hdisj].
        injection H2 as <-. apply (Halloc false) in H1. lia.
      + intros H1 H2. rewrite lookup_insert in H1.
        case_decide; [|by eapply Hdisj].
        injection H1 as <-. apply (Halloc true) in H2. lia. }
  destruct (cache_slot cae (self w)) as [c0|].
  - destruct (applications_map cae (self w) !! t) as [h|]; [done|].
    destruct (PublicClientApplication _ _) as [[e|] o]; [by apply Hkeep|].
    by apply Hstore.
  - destruct (call_initialize_cache cae w) as [[c|e] w1]; cbn [fst snd] in *;
      [|by apply Hkeep].
    destruct (applications_map cae (self w1) !! t) as [h|]; [by apply Hkeep|].
    destruct (PublicClientApplication _ _) as [[e|] o]; [by apply Hkeep|].
    by apply Hstore.
Qed.

Lemma request_token_registry_ok scopes kw w :
  registry_ok w → registry_ok (_request_token scopes kw w).2.
Proof.
  intros Hok%(get_app_registry_ok kw). rewrite request_token_snd.
  destruct (request_token_self scopes kw w) as (Hself & Happs & _).
  unfold registry_ok. by rewrite Hself, Happs.
Qed.

(** C6.  A successful [_get_app] works on the map and the cache of the
    capability mode of the call.  With CAE enabled the handle is the entry of
    the resolved tenant in [_cae_client_applications], the standard map is
    untouched, the token cache is [_cae_cache] (initialized with
    [is_cae=True] if unset), an application that has to be constructed gets
    [client_capabilities=["CP1"]] and the authority
    "<authority>/<tenant>", and the handle differs from the one the standard
    map holds for the tenant.  With CAE disabled the same holds of
    [_client_applications] and [_cache], with [client_capabilities=None]. *)
Theorem get_app_selects_by_capability_mode kw w app w' :
  registry_ok w →
  _get_app kw w = (Ok app, w') →
  ∃ tenant_id cache,
    resolve_tenant (_tenant_id (self w)) (_additionally_allowed_tenants (self w)) kw
      = Ok tenant_id ∧
    if truthy (dict_get "enable_cae" kw) then
      _cae_client_applications (self w') !! tenant_id = Some app ∧
      _client_applications (self w') = _client_applications (self w) ∧
      match _cae_cache (self w) with
      | Some c => cache = c ∧ init_log w' = init_log w
      | None =>
          (_initialize_cache true (_cache (self w), None) (outside w)).1.1 = Ok cache ∧
          init_log w' = init_log w ++ [true]
      end ∧
      (_cae_client_applications (self w) !! tenant_id = None →
       ∃ args,
         app = length (applications w) ∧
         applications w' = applications w ++ [args] ∧
         args = application_args (self w) (PyList [PyStr "CP1"]) tenant_id cache ∧
         client_capabilities args = PyList [PyStr "CP1"] ∧
         authority args = _authority (self w) +:+ "/" +:+ tenant_id ∧
         token_cache args = cache) ∧
      (∀ h, _client_applications (self w') !! tenant_id = Some h → app ≠ h)
    else
      _client_applications (self w') !! tenant_id = Some app ∧
      _cae_client_applications (self w') = _cae_client_applications (self w) ∧
      match _cache (self w) with
      | Some c => cache = c ∧ init_log w' = init_log w
      | None =>
          (_initialize_cache false (None, _cae_cache (self w)) (outside w)).1.1 = Ok cache ∧
          init_log w' = init_log w ++ [false]
      end ∧
      (_client_applications (self w) !! tenant_id = None →
       ∃ args,
         app = length (applications w) ∧
         applications w' = applications w ++ [args] ∧
         args = application_args (self w) PyNone tenant_id cache ∧
         client_capabilities args = PyNone ∧
         authority args = _authority (self w) +:+ "/" +:+ tenant_id ∧
         token_cache args = cache) ∧
      (∀ h, _cae_client_applications (self w') !! tenant_id = Some h → app ≠ h).
Proof.
  intros Hok Hget.
  pose proof (get_app_registry_ok kw w Hok) as [_ Hdisj].
  rewrite Hget in Hdisj. cbn [snd] in Hdisj.
  destruct (get_app_ok kw w app w' Hget) as (t & c & Hres & Hmap & Hother & Hcache & Hnew).
  exists t, c. split; [done|].
  destruct (truthy (dict_get "enable_cae" kw)); cbn [applications_map cache_slot negb] in *.
  - repeat split; [done|done| | |].
    + destruct (_cae_cache (self w)) as [c0|] eqn:Hslot;
        by destruct Hcache as (? & ? & _).
    + intros Hnone. rewrite Hnone in Hnew. destruct Hnew as [-> ->].
      by eexists.
    + intros h Hh ->. by eapply Hdisj.
  - repeat split; [done|done| | |].
    + destruct (_cache (self w)) as [c0|] eqn:Hslot;
        by destruct Hcache as (? & ? & _).
    + intros Hnone. rewrite Hnone in Hnew. destruct Hnew as [-> ->].
      by eexists.
    + intros h Hh ->. by eapply Hdisj.
Qed.


(** ** When [_get_app] fails *)



(** ** What [_request_token] returns and raises *)

(** X3.  A result that [_request_token] returns contains [access_token]
    and is, unchanged, the answer of the last [acquire_token_interactive]
    call of the run. *)
Theorem returned_result_has_token scopes kw w r :
  (_request_token scopes kw w).1 = Ok r →
  is_Some (r !! "access_token") ∧
  ∃ app a, last (new_calls w (_request_token scopes kw w).2) = Some (app, a, Ok r).
Proof.
  rewrite request_token_fst, request_token_snd.
  intros Hok%wrap_result_ok. revert Hok.
  rewrite request_token_run.
  destruct (get_app_frame kw w) as (Hlog & _ & _).
  destruct (_get_app kw w) as [[app|e] w1]; cbn [fst snd] in *; [|done].
  cbv zeta.
  set (claims := dict_get "claims" kw). set (port := port_of (self w1)).
  set (a := acquire_args (self w1) scopes claims port Prompt_NONE).
  assert (Hfinal : ∀ wm pre,
    acquire_log wm = acquire_log w ++ pre →
    (interactive_attempt app scopes claims port wm).1 = Ok r →
    is_Some (r !! "access_token") ∧
    ∃ app0 a0,
      last (new_calls w (interactive_attempt app scopes claims port wm).2) =
      Some (app0, a0, Ok r)).
  { intros wm pre Hpre.
    rewrite (new_calls_interactive _ _ _ _ _ _ _ Hpre), last_snoc.
    destruct (acquire_token_interactive app
      (acquire_args (self wm) scopes claims port (Prompt_str "select_account"))
      (outside wm)) as [[r2|e2] o] eqn:Hcall.
    - rewrite (interactive_attempt_ok _ _ _ _ _ _ _ Hcall). cbn [fst].
      destruct (r2 !! "access_token") as [v|] eqn:Htok.
      + intros [= <-]. split; [by rewrite Htok|by eexists _, _].
      + by destruct (r2 !! "error_description").
    - rewrite (interactive_attempt_raise _ _ _ _ _ _ _ Hcall). cbn [fst].
      by destruct (is_socket_error e2). }
  destruct (truthy _).
  - destruct (acquire_token_interactive app a (outside w1)) as [[r1|e] o].
    + unfold dict_contains. case_bool_decide as Htok.
      * cbn [fst snd]. intros [= <-]. split; [done|].
        rewrite (new_calls_app w _ [(app, a, Ok r1)]) by (cbn; by rewrite Hlog).
        by exists app, a.
      * apply (Hfinal _ [(app, a, Ok r1)]). cbn. by rewrite Hlog.
    + destruct (is_socket_error e); [|done].
      apply (Hfinal _ [(app, a, Raise e)]). cbn. by rewrite Hlog.
  - apply (Hfinal w1 []). by rewrite app_nil_r.
Qed.


(** X5.  With the operating system account disabled (the attribute is
    falsy), a run in which [_get_app] returns makes exactly one call to
    [acquire_token_interactive], the one with [prompt="select_account"], and
    the call is the decorated interactive block: its outcome is decided by
    the answer of that one call. *)
Theorem os_account_disabled_single_call scopes kw w app w1 :
  _get_app kw w = (Ok app, w1) →
  truthy (_use_operating_system_account (self w)) = false →
  let a_int := acquire_args (self w) scopes (dict_get "claims" kw) (port_of (self w))
                 (Prompt_str "select_account") in
  let o := outside w1 in
  _request_token scopes kw w =
    wrap_exceptions
      (interactive_attempt app scopes (dict_get "claims" kw) (port_of (self w))) w1 ∧
  new_calls w (_request_token scopes kw w).2 =
    [(app, a_int, (acquire_token_interactive app a_int o).1)] ∧
  (_request_token scopes kw w).1 =
    match (acquire_token_interactive app a_int o).1 with
    | Ok r2 =>
        match r2 !! "access_token", r2 !! "error_description" with
        | Some _, _ => Ok r2
        | None, Some d =>
            Raise (Exc (if within_dac w then CredentialUnavailableError
                        else ClientAuthenticationError)
                     (PyStr (if truthy d then py_str d
                             else "Operation returned an invalid status 'None'"))
                     None)
        | None, None =>
            Raise (Exc (if within_dac w then CredentialUnavailableError
                        else ClientAuthenticationError)
                     (PyStr "Failed to authenticate user") None)
        end
    | Raise e2 =>
        Raise (if is_socket_error e2
               then Exc CredentialUnavailableError
                      (PyStr "Couldn't start an HTTP server.") (Some e2)
               else reraised e2)
    end.
Proof.
  intros Hget Hflag. cbv zeta.
  destruct (get_app_frame kw w) as (Hlog & Hdac & Hset).
  assert (Hrun : request_token_body scopes kw w =
    interactive_attempt app scopes (dict_get "claims" kw) (port_of (self w)) w1).
  { rewrite request_token_run. rewrite Hget in *. cbn [snd] in *. cbv zeta.
    by rewrite (use_os_account_settings _ _ Hset), Hflag, (port_of_settings _ _ Hset). }
  rewrite Hget in *. cbn [snd] in *.
  split; [by unfold _request_token; rewrite !wrap_exceptions_run, Hrun|].
  rewrite request_token_snd, request_token_fst, Hrun. split.
  - rewrite (new_calls_interactive _ _ _ _ w w1 []) by (by rewrite app_nil_r).
    by rewrite (acquire_args_settings _ _ _ _ _ _ Hset).
  - rewrite wrapped_interactive_outcome.
    by rewrite (acquire_args_settings _ _ _ _ _ _ Hset), Hdac.
Qed.

Lemma request_token_calls_on scopes kw w app w1 :
  _get_app kw w = (Ok app, w1) →
  Forall (λ c, c.1.1 = app) (new_calls w (request_token_body scopes kw w).2).
Proof.
  intros Hget.
  destruct (get_app_frame kw w) as (Hlog & _ & _).
  rewrite request_token_run. rewrite Hget in *. cbn [snd] in *. cbv zeta.
  set (claims := dict_get "claims" kw). set (port := port_of (self w1)).
  set (a := acquire_args (self w1) scopes claims port Prompt_NONE).
  destruct (truthy (_use_operating_system_account _)).
  - destruct (acquire_token_interactive app a (outside w1)) as [[r1|e] o].
    + destruct (dict_contains _ _); cbn [snd].
      * rewrite (new_calls_app w _ [(app, a, Ok r1)]) by (cbn; by rewrite Hlog).
        by repeat constructor.
      * rewrite (new_calls_interactive _ _ _ _ w _ [(app, a, Ok r1)])
          by (cbn; by rewrite Hlog).
        by repeat constructor.
    + destruct (is_socket_error e); cbn [snd].
      * rewrite (new_calls_interactive _ _ _ _ w _ [(app, a, Raise e)])
          by (cbn; by rewrite Hlog).
        by repeat constructor.
      * rewrite (new_calls_app w _ [(app, a, Raise e)]) by (cbn; by rewrite Hlog).
        by repeat constructor.
  - rewrite (new_calls_interactive _ _ _ _ w w1 []) by (by rewrite app_nil_r).
    by repeat constructor.
Qed.

(** X6.  Every call to [acquire_token_interactive] that a run of
    [_request_token] makes is made on the application that [_get_app]
    returned, which is the entry of the resolved tenant in the application
    map of the call's capability mode. *)
Theorem calls_target_registered_application scopes kw w app w1 :
  _get_app kw w = (Ok app, w1) →
  ∃ tenant_id,
    resolve_tenant (_tenant_id (self w)) (_additionally_allowed_tenants (self w)) kw
      = Ok tenant_id ∧
    applications_map (truthy (dict_get "enable_cae" kw))
      (self (_request_token scopes kw w).2) !! tenant_id = Some app ∧
    Forall (λ c, c.1.1 = app) (new_calls w (_request_token scopes kw w).2).
Proof.
  intros Hget.
  destruct (get_app_ok kw w app w1 Hget) as (t & c & Hres & Hmap & _).
  exists t. split; [done|]. rewrite !request_token_snd.
  destruct (request_token_self scopes kw w) as (-> & _).
  rewrite Hget. cbn [snd]. split; [done|].
  by eapply request_token_calls_on.
Qed.

(** ** The chain context *)

Lemma initialize_cache_within_dac b cae w :
  call_initialize_cache cae (set_within_dac b w) =
  ((call_initialize_cache cae w).1, set_within_dac b (call_initialize_cache cae w).2).
Proof.
  unfold call_initialize_cache. cbn.
  by destruct (_initialize_cache _ _ _) as [[r cs] o].
Qed.

Lemma get_app_within_dac b kw w :
  _get_app kw (set_within_dac b w) =
  ((_get_app kw w).1, set_within_dac b (_get_app kw w).2).
Proof.
  rewrite !get_app_run. cbv zeta.
  change (self (set_within_dac b w)) with (self w).
  destruct (resolve_tenant _ _ _) as [t|e]; [|done].
  destruct (cache_slot _ (self w)) as [c0|].
  - cbn [self set_within_dac outside applications].
    destruct (applications_map _ (self w) !! t) as [h|]; [done|].
    by destruct (PublicClientApplication _ _) as [[e|] o].
  - rewrite initialize_cache_within_dac.
    destruct (call_initialize_cache _ w) as [[c|e] w1]; [|done].
    cbn [self set_within_dac outside applications fst snd].
    destruct (applications_map _ (self w1) !! t) as [h|]; [done|].
    by destruct (PublicClientApplication _ _) as [[e|] o].
Qed.

Lemma interactive_attempt_within_dac b app scopes claims port w :
  (interactive_attempt app scopes claims port (set_within_dac b w)).2 =
    set_within_dac b (interactive_attempt app scopes claims port w).2 ∧
  match (interactive_attempt app scopes claims port w).1,
        (interactive_attempt app scopes claims port (set_within_dac b w)).1 with
  | Ok r, Ok r' => r = r'
  | Raise e, Raise e' =>
      exc_message e = exc_message e' ∧ exc_cause e = exc_cause e' ∧
      (exc_cls e = exc_cls e' ∨
       (exc_cls e = CredentialUnavailableError ∧
        exc_cls e' = ClientAuthenticationError) ∨
       (exc_cls e = ClientAuthenticationError ∧
        exc_cls e' = CredentialUnavailableError))
  | _, _ => False
  end.
Proof.
  destruct (acquire_token_interactive app
    (acquire_args (self w) scopes claims port (Prompt_str "select_account"))
    (outside w)) as [[r|e] o] eqn:Hcall.
  - rewrite (interactive_attempt_ok _ _ _ _ w _ _ Hcall).
    rewrite (interactive_attempt_ok _ _ _ _ (set_within_dac b w) _ _ Hcall).
    cbn. split; [done|].
    destruct (r !! "access_token"), (r !! "error_description"),
      (within_dac w), b; cbn; naive_solver.
  - rewrite (interactive_attempt_raise _ _ _ _ w _ _ Hcall).
    rewrite (interactive_attempt_raise _ _ _ _ (set_within_dac b w) _ _ Hcall).
    cbn. split; [done|]. destruct (is_socket_error e); cbn; naive_solver.
Qed.

Lemma request_token_body_within_dac scopes kw w b :
  (request_token_body scopes kw (set_within_dac b w)).2 =
    set_within_dac b (request_token_body scopes kw w).2 ∧
  match (request_token_body scopes kw w).1,
        (request_token_body scopes kw (set_within_dac b w)).1 with
  | Ok r, Ok r' => r = r'
  | Raise e, Raise e' =>
      exc_message e = exc_message e' ∧ exc_cause e = exc_cause e' ∧
      (exc_cls e = exc_cls e' ∨
       (exc_cls e = CredentialUnavailableError ∧
        exc_cls e' = ClientAuthenticationError) ∨
       (exc_cls e = ClientAuthenticationError ∧
        exc_cls e' = CredentialUnavailableError))
  | _, _ => False
  end.
Proof.
  rewrite !request_token_run, get_app_within_dac.
  destruct (_get_app kw w) as [[app|e] w1]; cbn [fst snd]; [|naive_solver].
  cbv zeta. cbn [self set_within_dac outside].
  destruct (truthy _).
  - destruct (acquire_token_interactive _ _ _) as [[r1|e] o].
    + destruct (dict_contains _ _); [done|].
      apply (interactive_attempt_within_dac b app scopes _ _ (logged _ _ _ _ w1)).
    + destruct (is_socket_error e); [|naive_solver].
      apply (interactive_attempt_within_dac b app scopes _ _ (logged _ _ _ _ w1)).
  - apply interactive_attempt_within_dac.
Qed.

(** X7.  The chain context decides the class of the error and nothing
    else.  Running [_request_token] in the same world with another value of
    [within_dac] makes the same calls and leaves the same world (but for the
    flag); a result is returned in the one run exactly when it is in the
    other, and it is the same result; and when both raise, the two errors
    have the same message and cause, and the same class unless one is
    [CredentialUnavailableError] and the other [ClientAuthenticationError]. *)
Theorem chain_context_changes_class_only scopes kw w b :
  (_request_token scopes kw (set_within_dac b w)).2 =
    set_within_dac b (_request_token scopes kw w).2 ∧
  match (_request_token scopes kw w).1,
        (_request_token scopes kw (set_within_dac b w)).1 with
  | Ok r, Ok r' => r = r'
  | Raise e, Raise e' =>
      exc_message e = exc_message e' ∧ exc_cause e = exc_cause e' ∧
      (exc_cls e = exc_cls e' ∨
       (exc_cls e = CredentialUnavailableError ∧
        exc_cls e' = ClientAuthenticationError) ∨
       (exc_cls e = ClientAuthenticationError ∧
        exc_cls e' = CredentialUnavailableError))
  | _, _ => False
  end.
Proof.
  rewrite !request_token_snd, !request_token_fst.
  destruct (request_token_body_within_dac scopes kw w b) as [Hworld Hout].
  split; [done|].
  destruct (request_token_body scopes kw w).1 as [r|e],
    (request_token_body scopes kw (set_within_dac b w)).1 as [r'|e']; try done.
  cbn [wrap_result].
  destruct Hout as (Hmsg & Hcause & [Hcls|[[Hcls Hcls']|[Hcls Hcls']]]).
  - assert (e = e') as <-; [|by auto].
    destruct e, e'; cbn in *; congruence.
  - unfold reraised, is_ClientAuthenticationError. rewrite Hcls, Hcls'.
    split; [done|]. split; [done|]. right. by left.
  - unfold reraised, is_ClientAuthenticationError. rewrite Hcls, Hcls'.
    split; [done|]. split; [done|]. right. by right.
Qed.

(** ** The registry over the life of a credential *)

Lemma append_inj_r (a t t' : string) : a +:+ t = a +:+ t' → t = t'.
Proof. induction a as [|ch a IH]; cbn; [done|]. intros [= Heq]. by apply IH. Qed.

Lemma registry_consistent_frame w w1 :
  registry_consistent w →
  (∀ m, applications_map m (self w1) = applications_map m (self w)) →
  (∃ l, applications w1 = applications w ++ l) →
  same_settings (self w) (self w1) →
  registry_consistent w1.
Proof.
  intros Hcons Hm [l Ha] Hset m t h. rewrite Hm. intros Hl.
  destruct (Hcons m t h Hl) as (args & Hargs & Hauth & Hcaps & Hid & Hbroker).
  destruct Hset as (_ & _ & _ & _ & _ & Hcid & _ & Hauthority & _).
  exists args. rewrite Ha, Hauthority, Hcid.
  split; [by apply lookup_app_l_Some|done].
Qed.

Lemma registry_consistent_store w1 cae t c o :
  registry_consistent w1 →
  registry_consistent
    (set_self (set_base (store_application cae t (length (applications w1))
                           (self w1)) (self w1))
       (set_applications
          (applications w1 ++
             [application_args (self w1)
                (if cae then PyList [PyStr "CP1"] else PyNone) t c])
          (set_outside o w1))).
Proof.
  intros Hcons m t' h. cbn. rewrite applications_map_store.
  case_decide as Hd.
  - destruct Hd as [-> ->]. intros [= <-].
    eexists. split; [by apply list_lookup_middle|]. by destruct cae.
  - intros Hl.
    destruct (Hcons m t' h Hl) as (args & Hargs & Hauth & Hcaps & Hid & Hbroker).
    exists args. split; [by apply lookup_app_l_Some|]. by destruct cae.
Qed.

Lemma get_app_registry_consistent kw w :
  registry_consistent w → registry_consistent (_get_app kw w).2.
Proof.
  intros Hcons. rewrite get_app_run. cbv zeta.
  generalize (truthy (dict_get "enable_cae" kw)). intros cae.
  destruct (initialize_cache_frame cae w) as (Hmaps & Happs & Hset & _).
  assert (Hinit : registry_consistent (call_initialize_cache cae w).2).
  { apply (registry_consistent_frame w); [done|done| |done].
    exists []. by rewrite app_nil_r. }
  destruct (resolve_tenant _ _ _) as [t|e]; [|done].
  destruct (cache_slot cae (self w)) as [c0|].
  - destruct (applications_map cae (self w) !! t) as [h|]; [done|].
    destruct (PublicClientApplication _ _) as [[e|] o]; [done|].
    by apply registry_consistent_store.
  - destruct (call_initialize_cache cae w) as [[c|e] w1]; cbn [fst snd] in *;
      [|done].
    destruct (applications_map cae (self w1) !! t) as [h|]; [done|].
    destruct (PublicClientApplication _ _) as [[e|] o]; [done|].
    by apply registry_consistent_store.
Qed.

Lemma run_call_registry_consistent c w :
  registry_consistent w → registry_consistent (run_call c w).
Proof.
  intros Hcons. destruct c as [kw|scopes kw]; cbn.
  - by apply get_app_registry_consistent.
  - apply (get_app_registry_consistent kw) in Hcons. rewrite request_token_snd.
    destruct (request_token_self scopes kw w) as (Hself & Happs & _).
    unfold registry_consistent. by rewrite Hself, Happs.
Qed.

(** X8.  Starting from empty application maps, after any sequence of
    [_get_app] and [_request_token] calls, successful or not, every entry of
    the two maps is an application that was constructed for its own key:
    with the authority "<authority>/<tenant>" of its tenant, with
    [client_capabilities=["CP1"]] in the CAE map and [None] in the standard
    map, with this credential's client id and with the broker enabled.
    Hence no application is registered under two keys. *)
Theorem registry_consistent_forever calls w :
  _client_applications (self w) = ∅ →
  _cae_client_applications (self w) = ∅ →
  registry_consistent (run_calls calls w) ∧
  (∀ m m' t t' h,
     applications_map m (self (run_calls calls w)) !! t = Some h →
     applications_map m' (self (run_calls calls w)) !! t' = Some h →
     m = m' ∧ t = t').
Proof.
  intros Hstd Hcae.
  assert (Hcons : registry_consistent (run_calls calls w)).
  { assert (H0 : registry_consistent w).
    { intros [] t h; cbn; rewrite ?Hstd, ?Hcae; by rewrite lookup_empty. }
    clear Hstd Hcae. revert w H0. unfold run_calls.
    induction calls as [|c calls IH]; intros w H0; [done|].
    cbn. apply IH. by apply run_call_registry_consistent. }
  split; [done|].
  intros m m' t t' h Hl Hl'.
  destruct (Hcons m t h Hl) as (args & Hargs & Hauth & Hcaps & _).
  destruct (Hcons m' t' h Hl') as (args' & Hargs' & Hauth' & Hcaps' & _).
  rewrite Hargs in Hargs'. injection Hargs' as <-.
  split.
  - rewrite Hcaps in Hcaps'. by destruct m, m'.
  - rewrite Hauth in Hauth'. by do 2 apply append_inj_r in Hauth'.
Qed.

(** A call that finds the tenant registered and the cache of the mode set
    returns the registered application and changes nothing. *)
Lemma get_app_hit kw w t c app :
  resolve_tenant (_tenant_id (self w)) (_additionally_allowed_tenants (self w)) kw
    = Ok t →
  cache_slot (truthy (dict_get "enable_cae" kw)) (self w) = Some c →
  applications_map (truthy (dict_get "enable_cae" kw)) (self w) !! t = Some app →
  _get_app kw w = (Ok app, w).
Proof.
  intros Hres Hslot Hmap. rewrite get_app_run. cbv zeta.
  by rewrite Hres, Hslot, Hmap.
Qed.

(** X9.  Provided that a successful [_initialize_cache] leaves the cache
    attribute of its mode set: after a [_request_token] call in which
    [_get_app] returned an application, a further [_request_token] call with
    the same keyword arguments gets the same application from [_get_app],
    constructs no application, initializes no cache, and makes all its
    [acquire_token_interactive] calls on that application, whatever the
    first call returned or raised. *)
Theorem request_token_reuses_application scopes scopes' kw w app w1 :
  (∀ is_cae cs o c cs' o',
     _initialize_cache is_cae cs o = (Ok c, cs', o') →
     (if is_cae then cs'.2 else cs'.1) ≠ None) →
  _get_app kw w = (Ok app, w1) →
  _get_app kw (_request_token scopes kw w).2 = (Ok app, (_request_token scopes kw w).2) ∧
  applications (_request_token scopes' kw (_request_token scopes kw w).2).2 =
    applications (_request_token scopes kw w).2 ∧
  init_log (_request_token scopes' kw (_request_token scopes kw w).2).2 =
    init_log (_request_token scopes kw w).2 ∧
  Forall (λ c, c.1.1 = app)
    (new_calls (_request_token scopes kw w).2
       (_request_token scopes' kw (_request_token scopes kw w).2).2).
Proof.
  intros Hinit Hget. rewrite !request_token_snd.
  destruct (get_app_frame kw w) as (_ & _ & Hset). rewrite Hget in Hset.
  cbn [snd] in Hset. destruct Hset as (_ & _ & _ & Htid & Hallowed & _).
  destruct (get_app_ok kw w app w1 Hget) as (t & c & Hres & Hmap & _ & Hcache & _).
  assert (Hslot : is_Some (cache_slot (truthy (dict_get "enable_cae" kw)) (self w1))).
  { destruct (cache_slot _ (self w)) as [c0|] eqn:Hslot.
    - destruct Hcache as (_ & _ & ->). by eexists.
    - destruct Hcache as (Hok & _ & Hcs).
      destruct (_initialize_cache _ _ _) as [[r cs] o] eqn:Hi. cbn in Hok, Hcs.
      subst r. apply Hinit in Hi.
      apply not_eq_None_Some. unfold cache_slot.
      subst cs. by destruct (truthy _). }
  destruct Hslot as [c1 Hslot].
  destruct (request_token_self scopes kw w) as (Hself & _).
  rewrite Hget in Hself. cbn [snd] in Hself.
  assert (Hagain : _get_app kw (request_token_body scopes kw w).2 =
                   (Ok app, (request_token_body scopes kw w).2)).
  { apply (get_app_hit _ _ t c1); rewrite Hself; [|done|done].
    by rewrite Htid, Hallowed. }
  split; [done|].
  destruct (request_token_self scopes' kw (request_token_body scopes kw w).2)
    as (_ & -> & ->).
  rewrite Hagain. cbn [snd]. split; [done|]. split; [done|].
  by eapply request_token_calls_on.
Qed.

(** ** What one call can do *)

(** X10.  One call of [_get_app] or of [_request_token], whatever its
    outcome, calls [_initialize_cache] at most once, and only when the cache
    attribute of the call's mode is unset, with [is_cae] set to the
    truthiness of [enable_cae]; and it constructs at most one application,
    which [_get_app] then returns. *)
Theorem get_app_effects_bounded scopes kw w :
  let cae := truthy (dict_get "enable_cae" kw) in
  (init_log (_get_app kw w).2 = init_log w ∨
   cache_slot cae (self w) = None ∧ init_log (_get_app kw w).2 = init_log w ++ [cae]) ∧
  (applications (_get_app kw w).2 = applications w ∨
   ∃ args, applications (_get_app kw w).2 = applications w ++ [args] ∧
           (_get_app kw w).1 = Ok (length (applications w))) ∧
  init_log (_request_token scopes kw w).2 = init_log (_get_app kw w).2 ∧
  applications (_request_token scopes kw w).2 = applications (_get_app kw w).2.
Proof.
  cbv zeta. rewrite !request_token_snd.
  destruct (request_token_self scopes kw w) as (_ & Happs' & Hinit').
  split; [|split; [|by split]].
  - rewrite get_app_run. cbv zeta.
    generalize (truthy (dict_get "enable_cae" kw)). intros cae.
    destruct (initialize_cache_frame cae w) as (_ & _ & _ & Hinit & _).
    destruct (resolve_tenant _ _ _) as [t|e]; [|by left].
    destruct (cache_slot cae (self w)) as [c0|].
    + left. destruct (applications_map cae (self w) !! t) as [h|]; [done|].
      by destruct (PublicClientApplication _ _) as [[e|] o].
    + right. split; [done|].
      destruct (call_initialize_cache cae w) as [[c|e] w1]; cbn [fst snd] in *;
        [|done].
      destruct (applications_map cae (self w1) !! t) as [h|]; [done|].
      by destruct (PublicClientApplication _ _) as [[e|] o].
  - rewrite get_app_run. cbv zeta.
    generalize (truthy (dict_get "enable_cae" kw)). intros cae.
    destruct (initialize_cache_frame cae w) as (_ & Happs & _).
    destruct (resolve_tenant _ _ _) as [t|e]; [|by left].
    destruct (cache_slot cae (self w)) as [c0|].
    + destruct (applications_map cae (self w) !! t) as [h|]; [by left|].
      destruct (PublicClientApplication _ _) as [[e|] o]; [by left|].
      right. by eexists.
    + destruct (call_initialize_cache cae w) as [[c|e] w1]; cbn [fst snd] in *;
        [|by left].
      destruct (applications_map cae (self w1) !! t) as [h|]; [by left|].
      destruct (PublicClientApplication _ _) as [[e|] o]; [by left|].
      right. cbn. rewrite Happs. by eexists.
Qed.

(** X11.  [_get_app] reads its keyword arguments through tenant
    resolution and the truthiness of [enable_cae] only, and
    [_request_token] through these and the value of [claims]: two sets of
    keyword arguments that agree on them give the same outcome and the same
    world. *)
Theorem kwargs_read_through scopes kw kw' w :
  resolve_tenant (_tenant_id (self w)) (_additionally_allowed_tenants (self w)) kw' =
  resolve_tenant (_tenant_id (self w)) (_additionally_allowed_tenants (self w)) kw →
  truthy (dict_get "enable_cae" kw') = truthy (dict_get "enable_cae" kw) →
  _get_app kw' w = _get_app kw w ∧
  (dict_get "claims" kw' = dict_get "claims" kw →
   _request_token scopes kw' w = _request_token scopes kw w).
Proof.
  intros Hres Hmode.
  assert (Hget : _get_app kw' w = _get_app kw w).
  { rewrite !get_app_run. cbv zeta. by rewrite Hres, Hmode. }
  split; [done|]. intros Hclaims.
  unfold _request_token. rewrite !wrap_exceptions_run, !request_token_run.
  by rewrite Hget, Hclaims.
Qed.

(** X12.  A credential constructed without [use_operating_system_account]
    never makes the attempt with the operating system account: every call
    to [acquire_token_interactive] of every later [_request_token] carries
    [prompt="select_account"], and there is at most one per run.  Likewise a
    credential constructed without [enable_msa_passthrough] and
    [parent_window_handle] passes [False] and [None] for them. *)
Theorem default_construction scopes kw kw' c w :
  __init__ kw = Ok c →
  same_settings c (self w) →
  (kw !! "use_operating_system_account" = None →
   length (new_calls w (_request_token scopes kw' w).2) ≤ 1 ∧
   Forall (λ x, prompt x.1.2 = Prompt_str "select_account")
     (new_calls w (_request_token scopes kw' w).2)) ∧
  (kw !! "enable_msa_passthrough" = None →
   Forall (λ x, enable_msa_passthrough x.1.2 = PyBool false)
     (new_calls w (_request_token scopes kw' w).2)) ∧
  (kw !! "parent_window_handle" = None →
   Forall (λ x, parent_window_handle x.1.2 = PyNone)
     (new_calls w (_request_token scopes kw' w).2)).
Proof.
  intros Hinit (Hpwh & Hmsa & Hos & _). rewrite !request_token_snd.
  assert (Hc : _parent_window_handle c = default PyNone (kw !! "parent_window_handle") ∧
               _enable_msa_passthrough c =
                 default (PyBool false) (kw !! "enable_msa_passthrough") ∧
               _use_operating_system_account c =
                 default (PyBool false) (kw !! "use_operating_system_account")).
  { revert Hinit. unfold __init__, dict_pop.
    rewrite !lookup_delete_ne by done.
    destruct (super_init _) as [b|e]; [|done]. by intros [= <-]. }
  destruct Hc as (Hcp & Hcm & Hco).
  destruct (request_token_calls scopes kw' w) as (app & r1 & r2 & Hcalls).
  cbv zeta in Hcalls.
  split; [|split].
  - intros Hnone.
    assert (Hflag : truthy (_use_operating_system_account (self w)) = false)
      by (by rewrite Hos, Hco, Hnone).
    destruct (get_app_frame kw' w) as (Hlog & _ & Hset).
    revert Hcalls. rewrite request_token_run.
    destruct (_get_app kw' w) as [[app'|e] w1]; cbn [snd] in *.
    + cbv zeta. rewrite (use_os_account_settings _ _ Hset), Hflag.
      rewrite (new_calls_interactive _ _ _ _ w w1 []) by (by rewrite app_nil_r).
      intros _. cbn. split; [lia|by repeat constructor].
    + rewrite (new_calls_app w w1 []) by (by rewrite app_nil_r).
      intros _. cbn. split; [lia|constructor].
  - intros Hnone. rewrite Hcm, Hnone in Hmsa. cbn in Hmsa.
    destruct Hcalls as [-> | [-> | [-> | ->] ] ]; by repeat constructor.
  - intros Hnone. rewrite Hcp, Hnone in Hpwh. cbn in Hpwh.
    destruct Hcalls as [-> | [-> | [-> | ->] ] ]; by repeat constructor.
Qed.


End Properties.

(** * Runs in the scripted environment *)

(** C1 as worded does not hold.  The generic message starts with a
    capital letter: inside a credential chain, an interactive attempt that
    returns an empty result makes [_request_token] raise
    [CredentialUnavailableError] with the message "Failed to authenticate
    user", not "failed to authenticate user".  And the message of the error
    is not always the value of [error_description]: for an empty
    [error_description] it is the constructor's text about the missing
    status. *)
Lemma generic_message_is_capitalised :
  let w := scripted_world (scripted_credential ∅) true [Ok ∅] in
  let r : TokenResult := {[ "error_description" := PyStr "" ]} in
  let w' := scripted_world (scripted_credential ∅) false [Ok r] in
  (interactive_attempt_gave w (_request_token scope_graph ∅ w).2 (Ok ∅) ∧
   (∅ : TokenResult) !! "access_token" = None ∧
   (∅ : TokenResult) !! "error_description" = None ∧
   within_dac w = true ∧
   (_request_token scope_graph ∅ w).1 =
     Raise (Exc CredentialUnavailableError (PyStr "Failed to authenticate user") None) ∧
   (_request_token scope_graph ∅ w).1 ≠
     Raise (Exc CredentialUnavailableError (PyStr "failed to authenticate user") None)) ∧
  (interactive_attempt_gave w' (_request_token scope_graph ∅ w').2 (Ok r) ∧
   r !! "access_token" = None ∧
   r !! "error_description" = Some (PyStr "") ∧
   within_dac w' = false ∧
   (_request_token scope_graph ∅ w').1 =
     Raise (Exc ClientAuthenticationError
              (PyStr "Operation returned an invalid status 'None'") None) ∧
   (_request_token scope_graph ∅ w').1 ≠
     Raise (Exc ClientAuthenticationError (PyStr "") None)).
Proof.
  cbv zeta. split.
  - split; [|split; [done|split; [done|split; [done|split]]]].
    + exists 0, (acquire_args (scripted_credential ∅) scope_graph PyNone PyNone
                   (Prompt_str "select_account")).
      split; [|done].
      apply list_elem_of_In. vm_compute. left. reflexivity.
    + vm_compute. reflexivity.
    + vm_compute. intros Heq. discriminate Heq.
  - split; [|split; [done|split; [done|split; [done|split]]]].
    + exists 0, (acquire_args (scripted_credential ∅) scope_graph PyNone PyNone
                   (Prompt_str "select_account")).
      split; [|done].
      apply list_elem_of_In. vm_compute. left. reflexivity.
    + vm_compute. reflexivity.
    + vm_compute. intros Heq. discriminate Heq.
Qed.

(** An interactive attempt that returns an error description, outside a
    credential chain. *)
Lemma request_token_classification_witness :
  let r : TokenResult := {[ "error_description" := PyStr "AADSTS50058" ]} in
  let w := scripted_world (scripted_credential ∅) false [Ok r] in
  (_request_token scope_graph ∅ w).1 =
  Raise (Exc ClientAuthenticationError (PyStr "AADSTS50058") None).
Proof.
  cbv zeta.
  refine (proj1 (proj2 (request_token_classification (H := scripted) scope_graph ∅
            (scripted_world (scripted_credential ∅) false
               [Ok {[ "error_description" := PyStr "AADSTS50058" ]}])
            {[ "error_description" := PyStr "AADSTS50058" ]} _))
          _ (PyStr "AADSTS50058") _).
  - exists 0, (acquire_args (scripted_credential ∅) scope_graph PyNone PyNone
                 (Prompt_str "select_account")).
    split; [|reflexivity].
    apply list_elem_of_In. vm_compute. left. reflexivity.
  - vm_compute. reflexivity.
  - vm_compute. reflexivity.
Defined.

(** The interactive attempt cannot bind its loopback port. *)
Lemma interactive_socket_error_unavailable_witness :
  let w := scripted_world (scripted_credential ∅) true [Raise no_listener] in
  (_request_token scope_graph ∅ w).1 =
  Raise (Exc CredentialUnavailableError (PyStr "Couldn't start an HTTP server.")
           (Some no_listener)).
Proof.
  cbv zeta.
  apply (interactive_socket_error_unavailable (H := scripted)).
  - exists 0, (acquire_args (scripted_credential ∅) scope_graph PyNone PyNone
                 (Prompt_str "select_account")).
    split; [|reflexivity].
    apply list_elem_of_In. vm_compute. left. reflexivity.
  - vm_compute. reflexivity.
Defined.

(** A credential with the operating system account enabled, whose first
    attempt succeeds. *)
Lemma os_account_token_returned_immediately_witness :
  let c := scripted_credential {[ "use_operating_system_account" := PyBool true ]} in
  let r : TokenResult := {[ "access_token" := PyStr "abc" ]} in
  let w := scripted_world c false [Ok r; Ok ∅] in
  (_request_token scope_graph ∅ w).1 = Ok r ∧
  new_calls w (_request_token scope_graph ∅ w).2 =
    [(0, acquire_args c scope_graph PyNone PyNone Prompt_NONE, Ok r)].
Proof.
  cbv zeta.
  pose proof (os_account_token_returned_immediately (H := scripted) scope_graph ∅
    (scripted_world
       (scripted_credential {[ "use_operating_system_account" := PyBool true ]})
       false [Ok {[ "access_token" := PyStr "abc" ]}; Ok ∅])
    0
    (_get_app ∅
       (scripted_world
          (scripted_credential {[ "use_operating_system_account" := PyBool true ]})
          false [Ok {[ "access_token" := PyStr "abc" ]}; Ok ∅])).2
    {[ "access_token" := PyStr "abc" ]} [Ok ∅]) as Hrun.
  destruct Hrun as (Hout & Hcalls & _).
  - vm_compute. reflexivity.
  - vm_compute. reflexivity.
  - vm_compute. reflexivity.
  - exists (PyStr "abc"). vm_compute. reflexivity.
  - split; [exact Hout|exact Hcalls].
Defined.

(** The first attempt finds no broker session; the interactive attempt
    succeeds, and its result is the result of the call. *)
Lemma os_account_socket_error_swallowed_witness :
  let c := scripted_credential {[ "use_operating_system_account" := PyBool true ]} in
  let r : TokenResult := {[ "access_token" := PyStr "abc" ]} in
  let w := scripted_world c false [Raise no_listener; Ok r] in
  (_request_token scope_graph ∅ w).1 = Ok r ∧
  (_request_token scope_graph ∅ w).1 ≠ Raise no_listener ∧
  new_calls w (_request_token scope_graph ∅ w).2 =
    [(0, acquire_args c scope_graph PyNone PyNone Prompt_NONE, Raise no_listener);
     (0, acquire_args c scope_graph PyNone PyNone (Prompt_str "select_account"), Ok r)].
Proof.
  cbv zeta.
  pose proof (os_account_socket_error_swallowed (H := scripted) scope_graph ∅
    (scripted_world
       (scripted_credential {[ "use_operating_system_account" := PyBool true ]})
       false [Raise no_listener; Ok {[ "access_token" := PyStr "abc" ]}])
    0
    (_get_app ∅
       (scripted_world
          (scripted_credential {[ "use_operating_system_account" := PyBool true ]})
          false [Raise no_listener; Ok {[ "access_token" := PyStr "abc" ]}])).2
    no_listener [Ok {[ "access_token" := PyStr "abc" ]}]) as Hrun.
  destruct Hrun as (_ & Hcalls & Hnot & Hout).
  - vm_compute. reflexivity.
  - vm_compute. reflexivity.
  - vm_compute. reflexivity.
  - vm_compute. reflexivity.
  - split; [exact Hout|]. split; [exact Hnot|exact Hcalls].
Defined.



(** The first attempt returns an error result; the interactive attempt
    returns a bare one, inside a credential chain: the error carries the
    generic message, not the first attempt's description. *)
Lemma os_account_tokenless_result_discarded_witness :
  let c := scripted_credential {[ "use_operating_system_account" := PyBool true ]} in
  let r1 : TokenResult := {[ "error_description" := PyStr "no session" ]} in
  let w := scripted_world c true [Ok r1; Ok ∅] in
  (_request_token scope_graph ∅ w).1 =
    Raise (Exc CredentialUnavailableError (PyStr "Failed to authenticate user") None) ∧
  new_calls w (_request_token scope_graph ∅ w).2 =
    [(0, acquire_args c scope_graph PyNone PyNone Prompt_NONE, Ok r1);
     (0, acquire_args c scope_graph PyNone PyNone (Prompt_str "select_account"), Ok ∅)].
Proof.
  cbv zeta.
  pose proof (os_account_tokenless_result_discarded (H := scripted) scope_graph ∅
    (scripted_world
       (scripted_credential {[ "use_operating_system_account" := PyBool true ]})
       true [Ok {[ "error_description" := PyStr "no session" ]}; Ok ∅])
    0
    (_get_app ∅
       (scripted_world
          (scripted_credential {[ "use_operating_system_account" := PyBool true ]})
          true [Ok {[ "error_description" := PyStr "no session" ]}; Ok ∅])).2
    {[ "error_description" := PyStr "no session" ]} [Ok ∅]) as Hrun.
  destruct Hrun as (Hcalls & _ & Hout).
  - vm_compute. reflexivity.
  - vm_compute. reflexivity.
  - vm_compute. reflexivity.
  - vm_compute. reflexivity.
  - split; [exact Hout|exact Hcalls].
Defined.

(** An interactive attempt that returns a result with an [error] field
    only, next to one that returns an empty result. *)
Lemma classification_ignores_other_fields_witness :
  let r : TokenResult := {[ "error" := PyStr "interaction_required" ]} in
  let w := scripted_world (scripted_credential ∅) false [Ok r] in
  let w' := scripted_world
              (scripted_credential {[ "use_operating_system_account" := PyBool true ]})
              false [Raise no_listener; Ok ∅] in
  (_request_token scope_graph ∅ w).1 =
    Raise (Exc ClientAuthenticationError (PyStr "Failed to authenticate user") None) ∧
  raised (_request_token scope_graph ∅ w).1 = raised (_request_token scope_graph ∅ w').1.
Proof.
  cbv zeta.
  pose proof (classification_ignores_other_fields (H := scripted) scope_graph ∅
    (scripted_world (scripted_credential ∅) false
       [Ok {[ "error" := PyStr "interaction_required" ]}])
    {[ "error" := PyStr "interaction_required" ]}) as Hrun.
  destruct Hrun as (Hgeneric & Hsame).
  - exists 0, (acquire_args (scripted_credential ∅) scope_graph PyNone PyNone
                 (Prompt_str "select_account")).
    split; [|reflexivity].
    apply list_elem_of_In. vm_compute. left. reflexivity.
  - split.
    + apply Hgeneric; vm_compute; reflexivity.
    + apply (Hsame scope_graph ∅
               (scripted_world
                  (scripted_credential
                     {[ "use_operating_system_account" := PyBool true ]})
                  false [Raise no_listener; Ok ∅]) ∅).
      * exists 0, (acquire_args
                     (scripted_credential
                        {[ "use_operating_system_account" := PyBool true ]})
                     scope_graph PyNone PyNone (Prompt_str "select_account")).
        split; [|reflexivity].
        apply list_elem_of_In. vm_compute. right. left. reflexivity.
      * reflexivity.
      * split; intros [v Hv]; vm_compute in Hv; discriminate Hv.
      * vm_compute. reflexivity.
Defined.

(** The scripted cache initialization binds the attribute of its mode, so a
    second call for the same tenant and mode finds everything in place. *)
Lemma get_app_idempotent_witness :
  let w := scripted_world (scripted_credential ∅) false [] in
  let kw' : kwargs := {[ "tenant_id" := PyStr "organizations" ]} in
  _get_app kw' (_get_app ∅ w).2 = (Ok 0, (_get_app ∅ w).2) ∧
  init_log (_get_app kw' (_get_app ∅ w).2).2 = init_log (_get_app ∅ w).2.
Proof.
  cbv zeta.
  pose proof (get_app_idempotent (H := scripted) ∅
    {[ "tenant_id" := PyStr "organizations" ]}
    (scripted_world (scripted_credential ∅) false []) 0
    (_get_app ∅ (scripted_world (scripted_credential ∅) false [])).2) as Hrun.
  destruct Hrun as (Hsame & _ & Hinit & _).
  - intros [] cs o c cs' o' [= <- <- <-]; discriminate.
  - vm_compute. reflexivity.
  - vm_compute. reflexivity.
  - vm_compute. reflexivity.
  - split; [exact Hsame|exact Hinit].
Defined.

(** A CAE call after a standard call for the same tenant: a second
    application, registered in the CAE map. *)
Lemma get_app_selects_by_capability_mode_witness :
  let w := (_get_app ∅ (scripted_world (scripted_credential ∅) false [])).2 in
  let w' := (_get_app {[ "enable_cae" := PyBool true ]} w).2 in
  ∃ tenant_id cache,
    _cae_client_applications (self w') !! tenant_id = Some 1 ∧
    _client_applications (self w') = _client_applications (self w) ∧
    (∃ args,
       applications w' = applications w ++ [args] ∧
       client_capabilities args = PyList [PyStr "CP1"] ∧
       authority args = _authority (self w) +:+ "/" +:+ tenant_id ∧
       token_cache args = cache) ∧
    (∀ h, _client_applications (self w') !! tenant_id = Some h → 1 ≠ h).
Proof.
  cbv zeta.
  pose proof (get_app_selects_by_capability_mode (H := scripted)
    {[ "enable_cae" := PyBool true ]}
    (_get_app ∅ (scripted_world (scripted_credential ∅) false [])).2 1
    (_get_app {[ "enable_cae" := PyBool true ]}
       (_get_app ∅ (scripted_world (scripted_credential ∅) false [])).2).2) as Hrun.
  destruct Hrun as (tenant_id & cache & _ & Hmode).
  - apply get_app_registry_ok. split.
    + intros [] t h Hl; vm_compute in Hl; discriminate Hl.
    + intros t t' h h' Hl; vm_compute in Hl; discriminate Hl.
  - vm_compute. reflexivity.
  - exists tenant_id, cache.
    change (truthy (dict_get "enable_cae" {[ "enable_cae" := PyBool true ]}))
      with true in Hmode.
    destruct Hmode as (Hcae & Hstd & _ & Hnew & Hdistinct).
    split; [exact Hcae|]. split; [exact Hstd|]. split; [|exact Hdistinct].
    destruct Hnew as (args & _ & Happs & _ & Hcaps & Hauth & Hcache).
    + vm_compute. reflexivity.
    + exists args. repeat split; assumption.
Defined.



(** A run that returns a token. *)
Lemma returned_result_has_token_witness :
  let r : TokenResult := {[ "access_token" := PyStr "abc"; "error" := PyStr "x" ]} in
  let w := scripted_world (scripted_credential ∅) true [Ok r] in
  is_Some (r !! "access_token") ∧
  ∃ app a, last (new_calls w (_request_token scope_graph ∅ w).2) = Some (app, a, Ok r).
Proof.
  cbv zeta.
  apply (returned_result_has_token (H := scripted) scope_graph ∅
           (scripted_world (scripted_credential ∅) true
              [Ok {[ "access_token" := PyStr "abc"; "error" := PyStr "x" ]}])).
  vm_compute. reflexivity.
Defined.


(** The flag given as [0] disables the operating system account. *)
Lemma os_account_disabled_single_call_witness :
  let c := scripted_credential {[ "use_operating_system_account" := PyInt 0 ]} in
  let r : TokenResult := {[ "access_token" := PyStr "abc" ]} in
  let w := scripted_world c false [Ok r] in
  (_request_token scope_graph ∅ w).1 = Ok r ∧
  new_calls w (_request_token scope_graph ∅ w).2 =
    [(0, acquire_args c scope_graph PyNone PyNone (Prompt_str "select_account"), Ok r)].
Proof.
  cbv zeta.
  pose proof (os_account_disabled_single_call (H := scripted) scope_graph ∅
    (scripted_world (scripted_credential {[ "use_operating_system_account" := PyInt 0 ]})
       false [Ok {[ "access_token" := PyStr "abc" ]}])
    0
    (_get_app ∅
       (scripted_world
          (scripted_credential {[ "use_operating_system_account" := PyInt 0 ]})
          false [Ok {[ "access_token" := PyStr "abc" ]}])).2) as Hrun.
  destruct Hrun as (_ & Hcalls & Hout).
  - vm_compute. reflexivity.
  - vm_compute. reflexivity.
  - split; [exact Hout|]. rewrite Hcalls. vm_compute. reflexivity.
Defined.

(** A CAE request for an additionally allowed tenant. *)
Lemma calls_target_registered_application_witness :
  let kw : kwargs := {[ "tenant_id" := PyStr "contoso"; "enable_cae" := PyBool true ]} in
  let w := scripted_world
             (scripted_credential {[ "use_operating_system_account" := PyBool true ]})
             false [Ok ∅; Ok {[ "access_token" := PyStr "abc" ]}] in
  _cae_client_applications (self (_request_token scope_graph kw w).2) !! "contoso"
    = Some 0 ∧
  Forall (λ c, c.1.1 = 0) (new_calls w (_request_token scope_graph kw w).2).
Proof.
  cbv zeta.
  pose proof (calls_target_registered_application (H := scripted) scope_graph
    {[ "tenant_id" := PyStr "contoso"; "enable_cae" := PyBool true ]}
    (scripted_world
       (scripted_credential {[ "use_operating_system_account" := PyBool true ]})
       false [Ok ∅; Ok {[ "access_token" := PyStr "abc" ]}])
    0
    (_get_app {[ "tenant_id" := PyStr "contoso"; "enable_cae" := PyBool true ]}
       (scripted_world
          (scripted_credential {[ "use_operating_system_account" := PyBool true ]})
          false [Ok ∅; Ok {[ "access_token" := PyStr "abc" ]}])).2) as Hrun.
  destruct Hrun as (t & _ & _ & Hon).
  - vm_compute. reflexivity.
  - split; [vm_compute; reflexivity|exact Hon].
Defined.

(** Three uses of a fresh credential, one of them rejected. *)
Lemma registry_consistent_forever_witness :
  let calls :=
    [Call_request_token scope_graph ∅;
     Call_get_app {[ "tenant_id" := PyStr "fabrikam" ]};
     Call_get_app {[ "tenant_id" := PyStr "contoso"; "enable_cae" := PyBool true ]}] in
  let w := scripted_world (scripted_credential ∅) false [Ok ∅] in
  registry_consistent (run_calls calls w) ∧
  _client_applications (self (run_calls calls w)) !! "organizations" = Some 0 ∧
  _cae_client_applications (self (run_calls calls w)) !! "contoso" = Some 1.
Proof.
  cbv zeta.
  pose proof (registry_consistent_forever (H := scripted)
    [Call_request_token scope_graph ∅;
     Call_get_app {[ "tenant_id" := PyStr "fabrikam" ]};
     Call_get_app {[ "tenant_id" := PyStr "contoso"; "enable_cae" := PyBool true ]}]
    (scripted_world (scripted_credential ∅) false [Ok ∅])) as Hrun.
  destruct Hrun as (Hcons & _).
  - vm_compute. reflexivity.
  - vm_compute. reflexivity.
  - split; [exact Hcons|]. split; vm_compute; reflexivity.
Defined.

(** A first request that fails to authenticate, then a second one. *)
Lemma request_token_reuses_application_witness :
  let w := scripted_world (scripted_credential ∅) false
             [Ok ∅; Ok {[ "access_token" := PyStr "abc" ]}] in
  let w2 := (_request_token scope_graph ∅ w).2 in
  applications (_request_token scope_graph ∅ w2).2 = applications w2 ∧
  init_log (_request_token scope_graph ∅ w2).2 = init_log w2 ∧
  Forall (λ c, c.1.1 = 0) (new_calls w2 (_request_token scope_graph ∅ w2).2).
Proof.
  cbv zeta.
  pose proof (request_token_reuses_application (H := scripted) scope_graph scope_graph ∅
    (scripted_world (scripted_credential ∅) false
       [Ok ∅; Ok {[ "access_token" := PyStr "abc" ]}])
    0
    (_get_app ∅
       (scripted_world (scripted_credential ∅) false
          [Ok ∅; Ok {[ "access_token" := PyStr "abc" ]}])).2) as Hrun.
  destruct Hrun as (_ & Happs & Hinit & Hon).
  - intros [] cs o c cs' o' [= <- <- <-]; discriminate.
  - vm_compute. reflexivity.
  - split; [exact Happs|]. split; [exact Hinit|exact Hon].
Defined.

(** Keyword arguments that differ in what is not read. *)
Lemma kwargs_read_through_witness :
  let kw' : kwargs := {[ "enable_cae" := PyInt 0; "timeout" := PyInt 5 ]} in
  let w := scripted_world (scripted_credential ∅) false
             [Ok {[ "access_token" := PyStr "abc" ]}] in
  _request_token scope_graph kw' w = _request_token scope_graph ∅ w.
Proof.
  cbv zeta.
  refine (proj2 (kwargs_read_through (H := scripted) scope_graph ∅
            {[ "enable_cae" := PyInt 0; "timeout" := PyInt 5 ]}
            (scripted_world (scripted_credential ∅) false
               [Ok {[ "access_token" := PyStr "abc" ]}]) _ _) _).
  - vm_compute. reflexivity.
  - vm_compute. reflexivity.
  - vm_compute. reflexivity.
Defined.

(** A credential constructed with a login hint only. *)
Lemma default_construction_witness :
  let kw : kwargs := {[ "login_hint" := PyStr "user@contoso.example" ]} in
  let w := scripted_world (scripted_credential kw) false [Ok ∅] in
  Forall (λ x, prompt x.1.2 = Prompt_str "select_account")
    (new_calls w (_request_token scope_graph ∅ w).2) ∧
  Forall (λ x, enable_msa_passthrough x.1.2 = PyBool false)
    (new_calls w (_request_token scope_graph ∅ w).2).
Proof.
  cbv zeta.
  pose proof (default_construction (H := scripted) scope_graph
    {[ "login_hint" := PyStr "user@contoso.example" ]} ∅
    (scripted_credential {[ "login_hint" := PyStr "user@contoso.example" ]})
    (scripted_world
       (scripted_credential {[ "login_hint" := PyStr "user@contoso.example" ]})
       false [Ok ∅])) as Hrun.
  destruct Hrun as (Hos & Hmsa & _).
  - vm_compute. reflexivity.
  - repeat split.
  - split.
    + apply Hos. vm_compute. reflexivity.
    + apply Hmsa. vm_compute. reflexivity.
Defined.

